(** * VizAI (Chart-Odevi): a shallow embedding of the chart pipeline

    The development follows the four source files of the repository:
    - [types.ts]              : [ChartType], [VisualizationConfig], [Dataset];
    - [utils/parsers.ts]      : [parseCSV], [loadExampleTitanic];
    - [services/geminiService.ts] : [getAiClient], [analyzeImageAndData],
                                [refineConfig];
    - the [App] component     : [processData], the event handlers
                                [handleFileUpload], [handleGenerate], the
                                [renderChart] switch and the generate button.

    JavaScript values are modelled by the inductive [jsval]; objects keep
    their own properties in the order in which the language enumerates them;
    the handlers of the component live in a small state-and-exception monad
    over a [World] made of the process environment, the React state and a
    log of the effects that leave the component (alerts, console output,
    requests sent to the model). *)

From Stdlib Require Import String Ascii List ZArith NArith Lia Bool.
From Stdlib Require Import Decimal DecimalString Permutation Sorted.
Import ListNotations.

Set Warnings "-register-all".
Local Open Scope list_scope.
Local Open Scope string_scope.

(* ================================================================= *)
(** ** JavaScript values *)

Module JS.

(** The values that flow through the component.  A [JNum] is an
    integer-valued Number: the only arithmetic the component performs is
    [+ 1] on a counter, and a counter never exceeds the length of an array;
    fractional cells of a dataset are outside this type.  [JBuiltin name]
    is the native function that [Object.prototype] stores under [name]. *)
Inductive jsval : Type :=
| JUndefined
| JNull
| JBool (b : bool)
| JNum (z : Z)
| JStr (s : string)
| JArr (elems : list jsval)
| JObj (props : list (string * jsval))
| JBuiltin (name : string).

(** A plain object: its own enumerable string-keyed properties, listed in
    own-property order (array indices ascending, then the other keys in the
    order of their creation). *)
Definition obj : Type := list (string * jsval).

(** The double-quote character (string literals here never contain it). *)
Definition dq : string := String "034"%char EmptyString.

(** ToBoolean. *)
Definition truthy (v : jsval) : bool :=
  match v with
  | JUndefined | JNull => false
  | JBool b => b
  | JNum z => negb (z =? 0)%Z
  | JStr s => negb (s =? "")
  | JArr _ | JObj _ | JBuiltin _ => true
  end.

(** Truthiness of a [string] and of a [string | null]. *)
Definition nonempty (s : string) : bool := negb (s =? "").

Definition present (o : option string) : bool :=
  match o with
  | Some s => nonempty s
  | None => false
  end.

(** [a || b] on strings. *)
Definition or_else (a b : string) : string := if nonempty a then a else b.

(** Number::toString for an integer. *)
Definition Z_toString (z : Z) : string := NilZero.string_of_int (Z.to_int z).

Definition nat_toString (n : nat) : string := Z_toString (Z.of_nat n).

(** [String(v)].  An array joins the strings of its elements with commas
    (holes, [null] and [undefined] print as nothing); a plain object prints
    as [[object Object]]; a native function prints its engine-provided
    source text (the text V8 produces). *)
Fixpoint js_String (v : jsval) : string :=
  match v with
  | JUndefined => "undefined"
  | JNull => "null"
  | JBool true => "true"
  | JBool false => "false"
  | JNum z => Z_toString z
  | JStr s => s
  | JArr elems =>
      let item (x : jsval) : string :=
        match x with
        | JUndefined | JNull => ""
        | _ => js_String x
        end in
      (fix join (l : list jsval) : string :=
         match l with
         | [] => ""
         | [x] => item x
         | x :: rest => item x ++ "," ++ join rest
         end) elems
  | JObj _ => "[object Object]"
  | JBuiltin name => "function " ++ name ++ "() { [native code] }"
  end.

(** *** Own properties and their order *)

(** A canonical array index: the decimal spelling, without leading zeros,
    of an integer below [2^32 - 1]. *)
Definition array_index (k : string) : option N :=
  match NilZero.uint_of_string k with
  | Some u =>
      let n := N.of_uint u in
      if (n <? 4294967295)%N && (NilZero.string_of_uint (N.to_uint n) =? k)
      then Some n else None
  | None => None
  end.

Fixpoint obj_own (o : obj) (k : string) : option jsval :=
  match o with
  | [] => None
  | (k', v) :: rest => if k' =? k then Some v else obj_own rest k
  end.

Fixpoint obj_update (k : string) (v : jsval) (o : obj) : obj :=
  match o with
  | [] => []
  | (k', v') :: rest =>
      if k' =? k then (k', v) :: rest else (k', v') :: obj_update k v rest
  end.

(** Position of a fresh array index [n] among the existing indices. *)
Fixpoint obj_insert_index (n : N) (k : string) (v : jsval) (o : obj) : obj :=
  match o with
  | [] => [(k, v)]
  | (k', v') :: rest =>
      match array_index k' with
      | Some m =>
          if (m <? n)%N then (k', v') :: obj_insert_index n k v rest
          else (k, v) :: o
      | None => (k, v) :: o
      end
  end.

(** CreateDataProperty: what a property of an object literal does, and what
    an assignment does once it has decided to create or overwrite an own
    property. *)
Definition obj_define (k : string) (v : jsval) (o : obj) : obj :=
  match obj_own o k with
  | Some _ => obj_update k v o
  | None =>
      match array_index k with
      | Some n => obj_insert_index n k v o
      | None => (o ++ [(k, v)])%list
      end
  end.

(** *** [Object.prototype] *)

(** The names under which [Object.prototype] stores a native function. *)
Definition Object_prototype_methods : list string :=
  [ "constructor"; "__defineGetter__"; "__defineSetter__"; "hasOwnProperty";
    "__lookupGetter__"; "__lookupSetter__"; "isPrototypeOf";
    "propertyIsEnumerable"; "toString"; "valueOf"; "toLocaleString" ].

Fixpoint mem_string (k : string) (l : list string) : bool :=
  match l with
  | [] => false
  | x :: rest => (x =? k) || mem_string k rest
  end.

(** What a plain object inherits under [k].  The accessor [__proto__]
    answers [Object.prototype] itself, an object none of whose properties is
    enumerable; [constructor] answers the function [Object]. *)
Definition Object_prototype_get (k : string) : option jsval :=
  if k =? "__proto__" then Some (JObj [])
  else if k =? "constructor" then Some (JBuiltin "Object")
  else if mem_string k Object_prototype_methods then Some (JBuiltin k)
  else None.

(** [o[k]] for a plain object [o]. *)
Definition obj_get (o : obj) (k : string) : jsval :=
  match obj_own o k with
  | Some v => v
  | None =>
      match Object_prototype_get k with
      | Some v => v
      | None => JUndefined
      end
  end.

(** [o[k] = v] for a plain object [o].  An own property is overwritten.
    Otherwise the inherited accessor [__proto__] takes the assignment: it
    creates no own property (and ignores a primitive [v] altogether); any
    other key becomes a new own property, shadowing what was inherited. *)
Definition obj_set (k : string) (v : jsval) (o : obj) : obj :=
  match obj_own o k with
  | Some _ => obj_update k v o
  | None => if k =? "__proto__" then o else obj_define k v o
  end.

(** [Object.entries(o)]. *)
Definition Object_entries (o : obj) : list (string * jsval) := o.

(** [(c || 0) + 1].  A falsy [c] gives [0 + 1].  A truthy number is
    incremented, [true] counts for one, and every other truthy value is
    turned into a string by ToPrimitive, so that [+] concatenates. *)
Definition or_zero_plus_one (c : jsval) : jsval :=
  if truthy c then
    match c with
    | JNum n => JNum (n + 1)
    | JBool _ => JNum 2
    | v => JStr (js_String v ++ "1")
    end
  else JNum 1.

(** [s.split(c)] for a one-character separator. *)
Fixpoint split (c : ascii) (s : string) : list string :=
  match s with
  | EmptyString => [EmptyString]
  | String a rest =>
      if Ascii.eqb a c then EmptyString :: split c rest
      else
        match split c rest with
        | [] => [String a EmptyString]
        | h :: t => String a h :: t
        end
  end.

(** [f(x, i)] over an array, as [Array.prototype.map] passes the index. *)
Fixpoint mapi_from {A B : Type} (i : nat) (f : A -> nat -> B) (l : list A)
  : list B :=
  match l with
  | [] => []
  | x :: rest => f x i :: mapi_from (S i) f rest
  end.

Definition mapi {A B : Type} (f : A -> nat -> B) (l : list A) : list B :=
  mapi_from 0 f l.

End JS.
Import JS.

(* ================================================================= *)
(** ** types.ts *)

(** The string enum [ChartType]: each member is the string it denotes. *)
Module ChartType.
Definition BAR : string := "bar".
Definition LINE : string := "line".
Definition SCATTER : string := "scatter".
Definition AREA : string := "area".
Definition PIE : string := "pie".
Definition RADAR : string := "radar".
Definition COMPOSED : string := "composed".

(** [Object.values(ChartType)]. *)
Definition values : list string :=
  [BAR; LINE; SCATTER; AREA; PIE; RADAR; COMPOSED].
End ChartType.

Record VisualizationConfig : Type := {
  chartType : string;
  xAxisKey : string;
  yAxisKey : string;
  seriesKeys : option (list string);
  groupBy : option string;
  title : string;
  description : string;
  colors : option (list string);
  xLabel : option string;
  yLabel : option string;
  rCode : option string;
  pythonCode : option string
}.

Record Dataset : Type := {
  name : string;
  data : list obj;
  columns : list string
}.

(* ================================================================= *)
(** ** The aggregation heuristic of the chart preview *)

(** The body of the [forEach] callback: one row counted into [counts]. *)
Definition count_row (xKey : string) (counts : obj) (row : obj) : obj :=
  let key := js_String (obj_get row xKey) in
  obj_set key (or_zero_plus_one (obj_get counts key)) counts.

(** The object literal built for one entry of [counts]. *)
Definition count_entry (config : VisualizationConfig) (entry : string * jsval)
  : obj :=
  let '(name, value) := entry in
  obj_define "name" (JStr name)
    (obj_define (or_else (yAxisKey config) "value") value
       (obj_define (xAxisKey config) (JStr name) [])).

Definition processData (data : option (list obj))
                       (config : option VisualizationConfig) : list obj :=
  match data, config with
  | Some data, Some config =>
      if ((chartType config =? ChartType.PIE)
          || (chartType config =? ChartType.BAR))
         && (20 <? length data)%nat
      then
        if negb (nonempty (yAxisKey config)) || (yAxisKey config =? "count")
        then
          let counts := fold_left (count_row (xAxisKey config)) data [] in
          map (count_entry config) (Object_entries counts)
        else data
      else data
  | _, _ => []
  end.

Definition COLORS : list string :=
  ["#3b82f6"; "#10b981"; "#f59e0b"; "#ef4444"; "#8b5cf6"; "#ec4899";
   "#6366f1"].

(* ================================================================= *)
(** ** The world around the component *)

(** A thrown value: [new Error(message)], or whatever a library rejects
    with. *)
Inductive js_error : Type := Error (message : string).

(** How a call ends. *)
Inductive outcome (A : Type) : Type :=
| Returned (a : A)
| Thrown (e : js_error).
Arguments Returned {A} a.
Arguments Thrown {A} e.

(** The request types of the [@google/genai] client. *)
Module GenAI.

Record GoogleGenAI : Type := { apiKey : string }.

Inductive Part : Type :=
| TextPart (text : string)
| InlineDataPart (mimeType : string) (data : string).

(** [contents] is either a bare string or an object with [parts]. *)
Inductive Contents : Type :=
| ContentsString (text : string)
| ContentsParts (parts : list Part).

Inductive Schema : Type :=
| StringSchema (enum : option (list string)) (description : option string)
| ArraySchema (items : Schema) (description : option string)
| ObjectSchema (properties : list (string * Schema))
               (required : list string).

Record GenerateContentConfig : Type := {
  responseMimeType : string;
  responseSchema : Schema
}.

Record GenerateContentParameters : Type := {
  model : string;
  contents : Contents;
  config : GenerateContentConfig
}.

(** How the promise of [generateContent] settles; [text] is the getter
    [response.text], a string or [undefined]. *)
Inductive Settled : Type :=
| Rejects (reason : js_error)
| Resolves (text : option string).

(** The image payloads a request carries. *)
Definition inline_images (params : GenerateContentParameters)
  : list string :=
  match contents params with
  | ContentsString _ => []
  | ContentsParts parts =>
      flat_map (fun p => match p with
                         | TextPart _ => []
                         | InlineDataPart _ d => [d]
                         end) parts
  end.

(** The prompt text a request carries. *)
Definition prompt_text (params : GenerateContentParameters)
  : list string :=
  match contents params with
  | ContentsString s => [s]
  | ContentsParts parts =>
      flat_map (fun p => match p with
                         | TextPart s => [s]
                         | InlineDataPart _ _ => []
                         end) parts
  end.

End GenAI.

(** The types of the [papaparse] library the parsers use. *)
Module Papa.

Record ParseConfig : Type := {
  header : bool;
  dynamicTyping : bool;
  skipEmptyLines : bool
}.

Record ParseMeta : Type := { fields : option (list string) }.

Record ParseResult : Type := {
  data : list obj;
  meta : ParseMeta
}.

(** Which of the two callbacks the parser calls. *)
Inductive Callback : Type :=
| complete (results : ParseResult)
| error (err : js_error).

End Papa.

Module File.
Record t : Type := { name : string; content : string }.
End File.

(** The input of [Papa.parse]: a [File] or a string. *)
Inductive PapaInput : Type :=
| OfFile (file : File.t)
| OfString (text : string).

(** What [parseCSV] and [loadExampleTitanic] resolve with. *)
Module Parsed.
Record t : Type := { data : list obj; columns : list string }.
End Parsed.

(** The libraries and services the program calls without defining them.
    Every theorem below holds for every such platform. *)
Class Platform : Type := {
  JSON_stringify : forall {A : Type}, A -> string;
  (** [JSON.parse(text) as VisualizationConfig], or the SyntaxError thrown *)
  JSON_parse : string -> outcome VisualizationConfig;
  (** [ai.models.generateContent(params)] *)
  generateContent :
    GenAI.GoogleGenAI -> GenAI.GenerateContentParameters -> GenAI.Settled;
  (** [Papa.parse(input, config)] *)
  Papa_parse : PapaInput -> Papa.ParseConfig -> Papa.Callback;
  (** [reader.result] once [readAsDataURL(file)] has ended *)
  FileReader_readAsDataURL : File.t -> option string
}.

(** [process.env]. *)
Record Env : Type := { API_KEY : option string }.

(** The union ['chart' | 'r' | 'python']. *)
Inductive Tab : Type := tab_chart | tab_r | tab_python.

(** The six [useState] cells of [App]. *)
Record AppState : Type := {
  dataset : option Dataset;
  config : option VisualizationConfig;
  loading : bool;
  prompt : string;
  imagePreview : option string;
  activeTab : Tab
}.

(** What leaves the component. *)
Inductive effect : Type :=
| Alert (message : string)
| ConsoleError (err : js_error)
| Request (ai : GenAI.GoogleGenAI) (params : GenAI.GenerateContentParameters).

Record World : Type := {
  env : Env;
  ui : AppState;
  trace : list effect
}.

(** *** The monad of the handlers: state, trace and exceptions *)

(** A handler is a function of the world that returns the world it leaves
    and either a value or the value it threw.  An [async] function is
    modelled by the same type, its result being how its promise settles;
    [await] is [bind]: the awaited call runs to its settlement inside the
    handler that awaits it. *)

Definition M (A : Type) : Type := World -> World * outcome A.

Definition ret {A : Type} (a : A) : M A := fun w => (w, Returned a).

Definition throw {A : Type} (e : js_error) : M A := fun w => (w, Thrown e).

Definition bind {A B : Type} (m : M A) (k : A -> M B) : M B :=
  fun w =>
    match m w with
    | (w', Returned a) => k a w'
    | (w', Thrown e) => (w', Thrown e)
    end.

Notation "x <- m ;; k" := (bind m (fun x => k))
  (at level 61, m at next level, right associativity).
Notation "m ;; k" := (bind m (fun _ => k))
  (at level 61, right associativity).

(** [try { body } catch (e) { handler(e) }]. *)
Definition try_catch {A : Type} (body : M A) (handler : js_error -> M A)
  : M A :=
  fun w =>
    match body w with
    | (w', Returned a) => (w', Returned a)
    | (w', Thrown e) => handler e w'
    end.

(** [try { body } finally { final }]. *)
Definition try_finally {A : Type} (body : M A) (final : M unit) : M A :=
  fun w =>
    match body w with
    | (w1, r1) =>
        match final w1 with
        | (w2, Returned _) => (w2, r1)
        | (w2, Thrown e) => (w2, Thrown e)
        end
    end.

Definition emit (e : effect) : M unit :=
  fun w => ({| env := env w; ui := ui w; trace := (trace w ++ [e])%list |},
            Returned tt).

Definition alert (message : string) : M unit := emit (Alert message).

Definition console_error (err : js_error) : M unit := emit (ConsoleError err).

Definition modify (f : AppState -> AppState) : M unit :=
  fun w => ({| env := env w; ui := f (ui w); trace := trace w |}, Returned tt).

(** The state after one [useState] setter. *)
Definition with_dataset (d : option Dataset) (st : AppState) : AppState :=
  {| dataset := d; config := config st; loading := loading st;
     prompt := prompt st; imagePreview := imagePreview st;
     activeTab := activeTab st |}.

Definition with_config (c : option VisualizationConfig) (st : AppState)
  : AppState :=
  {| dataset := dataset st; config := c; loading := loading st;
     prompt := prompt st; imagePreview := imagePreview st;
     activeTab := activeTab st |}.

Definition with_loading (b : bool) (st : AppState) : AppState :=
  {| dataset := dataset st; config := config st; loading := b;
     prompt := prompt st; imagePreview := imagePreview st;
     activeTab := activeTab st |}.

Definition with_prompt (s : string) (st : AppState) : AppState :=
  {| dataset := dataset st; config := config st; loading := loading st;
     prompt := s; imagePreview := imagePreview st;
     activeTab := activeTab st |}.

Definition with_imagePreview (i : option string) (st : AppState)
  : AppState :=
  {| dataset := dataset st; config := config st; loading := loading st;
     prompt := prompt st; imagePreview := i;
     activeTab := activeTab st |}.

Definition with_activeTab (t : Tab) (st : AppState) : AppState :=
  {| dataset := dataset st; config := config st; loading := loading st;
     prompt := prompt st; imagePreview := imagePreview st;
     activeTab := t |}.

Definition setDataset (d : option Dataset) : M unit :=
  modify (with_dataset d).

Definition setConfig (c : option VisualizationConfig) : M unit :=
  modify (with_config c).

Definition setLoading (b : bool) : M unit := modify (with_loading b).

Definition setPrompt (s : string) : M unit := modify (with_prompt s).

Definition setImagePreview (i : option string) : M unit :=
  modify (with_imagePreview i).

Definition setActiveTab (t : Tab) : M unit := modify (with_activeTab t).

(** The line feed of the template literals. *)
Definition nl : string := String "010"%char EmptyString.

Section Program.

Context {platform : Platform}.

(* ================================================================= *)
(** ** services/geminiService.ts *)

Definition getAiClient : M GenAI.GoogleGenAI :=
  fun w =>
    match API_KEY (env w) with
    | Some apiKey =>
        if nonempty apiKey then ret {| GenAI.apiKey := apiKey |} w
        else throw (Error "API Key not found in environment variables") w
    | None => throw (Error "API Key not found in environment variables") w
    end.

(** [await ai.models.generateContent(params)]: the request leaves the
    component, then the promise settles. *)
Definition models_generateContent (ai : GenAI.GoogleGenAI)
    (params : GenAI.GenerateContentParameters) : M (option string) :=
  emit (Request ai params) ;;
  match generateContent ai params with
  | GenAI.Rejects reason => throw reason
  | GenAI.Resolves text => ret text
  end.

(** The tail shared by both operations: a response without text is an
    error, and the text is parsed as the new configuration. *)
Definition read_response (text : option string) : M VisualizationConfig :=
  match text with
  | Some t =>
      if nonempty t then
        match JSON_parse t with
        | Returned c => ret c
        | Thrown e => throw e
        end
      else throw (Error "No response from AI")
  | None => throw (Error "No response from AI")
  end.

Definition analyze_prompt (dataSample : list obj) (columns : list string)
    (userPrompt : string) : string :=
  String.concat nl [
      "";
      "    You are an expert Data Visualization Engineer. ";
      "    ";
      "    Task:";
      "    1. Analyze the provided dataset structure (columns and sample data).";
      "    2. If an image is provided, analyze the chart style, type, and aesthetics (color, layout) from the image.";
      "    3. Generate a configuration to recreate a similar visualization using the provided dataset.";
      "    4. If no image is provided, suggest the best chart type based on the data and user prompt.";
      "    5. Also generate R (ggplot2) and Python (matplotlib/seaborn) code snippets to reproduce this chart.";
      "";
      "    User Prompt: " ++ userPrompt;
      "    Data Columns: " ++ JSON_stringify columns;
      "    Data Sample (First 3 rows): " ++ JSON_stringify (firstn 3 dataSample);
      "  " ].

(** [imageDataBase64.split(',')[1] || imageDataBase64]. *)
Definition cleanBase64 (imageDataBase64 : string) : string :=
  match nth_error (split "," imageDataBase64) 1 with
  | Some field => if nonempty field then field else imageDataBase64
  | None => imageDataBase64
  end.

(** The [parts] array once the optional image has been pushed. *)
Definition analyze_parts (imageDataBase64 : option string)
    (prompt : string) : list GenAI.Part :=
  ([GenAI.TextPart prompt] ++
   match imageDataBase64 with
   | Some image =>
       if nonempty image
       then [GenAI.InlineDataPart "image/png" (cleanBase64 image)]
       else []
   | None => []
   end)%list.

Definition analyze_schema : GenAI.Schema :=
  GenAI.ObjectSchema
    [ ("chartType", GenAI.StringSchema (Some ChartType.values) None);
      ("xAxisKey",
       GenAI.StringSchema None (Some "Key from data to use for X axis"));
      ("yAxisKey",
       GenAI.StringSchema None
         (Some "Key from data to use for Y axis (primary metric)"));
      ("seriesKeys",
       GenAI.ArraySchema (GenAI.StringSchema None None)
         (Some "Array of keys for multiple lines/bars if applicable"));
      ("groupBy",
       GenAI.StringSchema None
         (Some "Key to group by for colors (e.g., 'Pclass' or 'Sex')"));
      ("title", GenAI.StringSchema None None);
      ("description", GenAI.StringSchema None None);
      ("xLabel", GenAI.StringSchema None None);
      ("yLabel", GenAI.StringSchema None None);
      ("colors", GenAI.ArraySchema (GenAI.StringSchema None None) None);
      ("rCode",
       GenAI.StringSchema None (Some "Complete R script using ggplot2"));
      ("pythonCode",
       GenAI.StringSchema None
         (Some "Complete Python script using seaborn/matplotlib")) ]
    ["chartType"; "xAxisKey"; "yAxisKey"; "title"; "rCode"; "pythonCode"].

Definition analyze_request (imageDataBase64 : option string)
    (dataSample : list obj) (columns : list string) (userPrompt : string)
  : GenAI.GenerateContentParameters :=
  {| GenAI.model := "gemini-2.5-flash";
     GenAI.contents :=
       GenAI.ContentsParts
         (analyze_parts imageDataBase64
            (analyze_prompt dataSample columns userPrompt));
     GenAI.config :=
       {| GenAI.responseMimeType := "application/json";
          GenAI.responseSchema := analyze_schema |} |}.

Definition analyzeImageAndData (imageDataBase64 : option string)
    (dataSample : list obj) (columns : list string) (userPrompt : string)
  : M VisualizationConfig :=
  ai <- getAiClient ;;
  text <- models_generateContent ai
            (analyze_request imageDataBase64 dataSample columns userPrompt) ;;
  read_response text.

Definition refine_prompt (currentConfig : VisualizationConfig)
    (userPrompt : string) : string :=
  String.concat nl [
      "";
      "    Current Configuration: " ++ JSON_stringify currentConfig;
      "    User Update Request: " ++ dq ++ userPrompt ++ dq;
      "";
      "    Update the visualization configuration based on the user's request. ";
      "    You can change the chart type, axis keys, titles, or colors.";
      "    Regenerate the R and Python code to reflect these changes.";
      "  " ].

Definition refine_schema : GenAI.Schema :=
  GenAI.ObjectSchema
    [ ("chartType", GenAI.StringSchema (Some ChartType.values) None);
      ("xAxisKey", GenAI.StringSchema None None);
      ("yAxisKey", GenAI.StringSchema None None);
      ("seriesKeys", GenAI.ArraySchema (GenAI.StringSchema None None) None);
      ("groupBy", GenAI.StringSchema None None);
      ("title", GenAI.StringSchema None None);
      ("description", GenAI.StringSchema None None);
      ("xLabel", GenAI.StringSchema None None);
      ("yLabel", GenAI.StringSchema None None);
      ("colors", GenAI.ArraySchema (GenAI.StringSchema None None) None);
      ("rCode", GenAI.StringSchema None None);
      ("pythonCode", GenAI.StringSchema None None) ]
    ["chartType"; "xAxisKey"; "yAxisKey"; "title"; "rCode"; "pythonCode"].

Definition refine_request (currentConfig : VisualizationConfig)
    (userPrompt : string) : GenAI.GenerateContentParameters :=
  {| GenAI.model := "gemini-2.5-flash";
     GenAI.contents :=
       GenAI.ContentsString (refine_prompt currentConfig userPrompt);
     GenAI.config :=
       {| GenAI.responseMimeType := "application/json";
          GenAI.responseSchema := refine_schema |} |}.

Definition refineConfig (currentConfig : VisualizationConfig)
    (userPrompt : string) : M VisualizationConfig :=
  ai <- getAiClient ;;
  text <- models_generateContent ai (refine_request currentConfig userPrompt) ;;
  read_response text.

(* ================================================================= *)
(** ** utils/parsers.ts *)

Definition parse_options : Papa.ParseConfig :=
  {| Papa.header := true; Papa.dynamicTyping := true;
     Papa.skipEmptyLines := true |}.

(** The promise both parsers build around [Papa.parse]: [complete] resolves
    when the header produced fields and rejects otherwise, [error]
    rejects. *)
Definition parse_promise (input : PapaInput) : M Parsed.t :=
  match Papa_parse input parse_options with
  | Papa.complete results =>
      match Papa.fields (Papa.meta results) with
      | Some fields =>
          ret {| Parsed.data := Papa.data results; Parsed.columns := fields |}
      | None => throw (Error "Could not parse columns from CSV")
      end
  | Papa.error err => throw err
  end.

Definition parseCSV (file : File.t) : M Parsed.t :=
  parse_promise (OfFile file).

Definition rawData : string :=
  String.concat nl [
      "PassengerId,Survived,Pclass,Name,Sex,Age,SibSp,Parch,Ticket,Fare,Cabin,Embarked";
      "1,0,3," ++ dq ++ "Braund, Mr. Owen Harris" ++ dq ++ ",male,22,1,0,A/5 21171,7.25,,S";
      "2,1,1," ++ dq ++ "Cumings, Mrs. John Bradley (Florence Briggs Thayer)" ++ dq ++ ",female,38,1,0,PC 17599,71.2833,C85,C";
      "3,1,3," ++ dq ++ "Heikkinen, Miss. Laina" ++ dq ++ ",female,26,0,0,STON/O2. 3101282,7.925,,S";
      "4,1,1," ++ dq ++ "Futrelle, Mrs. Jacques Heath (Lily May Peel)" ++ dq ++ ",female,35,1,0,113803,53.1,C123,S";
      "5,0,3," ++ dq ++ "Allen, Mr. William Henry" ++ dq ++ ",male,35,0,0,373450,8.05,,S";
      "6,0,3," ++ dq ++ "Moran, Mr. James" ++ dq ++ ",male,,0,0,330877,8.4583,,Q" ].

Definition loadExampleTitanic : M Parsed.t :=
  parse_promise (OfString rawData).

(* ================================================================= *)
(** ** The [App] component *)

(** *** Event handlers *)

(** The effect run on mount: the example dataset is loaded and stored. *)
Definition App_mount : M unit :=
  res <- loadExampleTitanic ;;
  setDataset (Some {| name := "Titanic Dataset"; data := Parsed.data res;
                      columns := Parsed.columns res |}).

(** The argument is [e.target.files?.[0]]. *)
Definition handleFileUpload (file : option File.t) : M unit :=
  match file with
  | None => ret tt
  | Some file =>
      try_catch
        (res <- parseCSV file ;;
         setDataset (Some {| name := File.name file; data := Parsed.data res;
                             columns := Parsed.columns res |}) ;;
         setConfig None)
        (fun err =>
           console_error err ;;
           alert "Failed to parse CSV")
  end.

Definition handleImageUpload (file : option File.t) : M unit :=
  match file with
  | None => ret tt
  | Some file => setImagePreview (FileReader_readAsDataURL file)
  end.

(** The handler reads the state cells of the render in which it was
    created, here the state of the world it is started in. *)
Definition handleGenerate : M unit :=
  fun w =>
    let st := ui w in
    match dataset st with
    | None => ret tt w
    | Some dataset =>
        let refine (config : VisualizationConfig) : M unit :=
          newConfig <- refineConfig config (prompt st) ;;
          setConfig (Some newConfig) in
        let generate : M unit :=
          newConfig <- analyzeImageAndData (imagePreview st)
                         (data dataset) (columns dataset)
                         (or_else (prompt st)
                            "Visualize this data effectively") ;;
          setConfig (Some newConfig) in
        (setLoading true ;;
         try_finally
           (try_catch
              (match config st with
               | Some config =>
                   if nonempty (prompt st) && negb (present (imagePreview st))
                   then refine config
                   else generate
               | None => generate
               end)
              (fun error =>
                 console_error error ;;
                 alert "AI Generation failed. Please check your API Key or try again."))
           (setLoading false)) w
    end.

(** *** The rendered tree *)

Inductive element : Type :=
| El (tag : string) (props : list (string * jsval)) (children : list element)
| Text (s : string).

Definition opt_str (o : option string) : jsval :=
  match o with
  | Some s => JStr s
  | None => JUndefined
  end.

Definition rows_value (rows : list obj) : jsval := JArr (map JObj rows).

(** [useMemo(() => processData(dataset?.data || [], config))]. *)
Definition chartData (st : AppState) : list obj :=
  processData
    (Some match dataset st with
          | Some d => data d
          | None => []
          end)
    (config st).

(** [config.colors?.[i] || COLORS[i % COLORS.length]]. *)
Definition palette (i : nat) : string :=
  nth (i mod length COLORS) COLORS "".

Definition series_color (config : VisualizationConfig) (i : nat) : string :=
  match colors config with
  | Some cs =>
      match nth_error cs i with
      | Some c => or_else c (palette i)
      | None => palette i
      end
  | None => palette i
  end.

(** [config.colors?.[index % (config.colors.length || 1)]
     || COLORS[index % COLORS.length]]. *)
Definition cell_color (config : VisualizationConfig) (index : nat) : string :=
  match colors config with
  | Some cs =>
      let len := match length cs with O => 1 | n => n end in
      match nth_error cs (index mod len) with
      | Some c => or_else c (palette index)
      | None => palette index
      end
  | None => palette index
  end.

(** The series keys: [seriesKeys] when it is a non-empty array, else the
    single y-axis key. *)
Definition series_keys (config : VisualizationConfig) : list string :=
  match seriesKeys config with
  | Some (k :: ks) => k :: ks
  | _ => [yAxisKey config]
  end.

Definition space : element := Text " ".

Definition ResponsiveContainer (child : element) : element :=
  El "ResponsiveContainer" [("width", JStr "100%"); ("height", JStr "100%")]
     [child].

(** The constants [renderChart] builds before its switch. *)
Definition commonProps (st : AppState) : list (string * jsval) :=
  [ ("data", rows_value (chartData st));
    ("margin", JObj [("top", JNum 20); ("right", JNum 30);
                     ("left", JNum 20); ("bottom", JNum 50)]) ].

Definition X (config : VisualizationConfig) : element :=
  El "XAxis"
     [ ("dataKey", JStr (xAxisKey config)); ("stroke", JStr "#94a3b8");
       ("angle", JNum (-45)); ("textAnchor", JStr "end");
       ("height", JNum 60) ] [].

Definition Y : element := El "YAxis" [("stroke", JStr "#94a3b8")] [].

Definition Grid : element :=
  El "CartesianGrid"
     [("strokeDasharray", JStr "3 3"); ("stroke", JStr "#334155")] [].

Definition Tool : element :=
  El "Tooltip"
     [ ("contentStyle",
        JObj [ ("backgroundColor", JStr "#1e293b");
               ("borderColor", JStr "#334155");
               ("color", JStr "#f1f5f9") ]) ] [].

Definition Leg : element := El "Legend" [] [].

(** The children [{Grid} {X} {Y} {Tool} {Leg}], blanks included. *)
Definition axes (config : VisualizationConfig) : list element :=
  [Grid; space; X config; space; Y; space; Tool; space; Leg].

(** One [<Bar>] per series key. *)
Definition bars (config : VisualizationConfig) : list element :=
  mapi (fun key i =>
          El "Bar" [ ("key", JStr key); ("dataKey", JStr key);
                     ("fill", JStr (series_color config i)) ] [])
       (series_keys config).

Definition renderChart (st : AppState) : element :=
  match config st, dataset st with
  | Some config, Some dataset =>
      if chartType config =? ChartType.BAR then
        ResponsiveContainer
          (El "BarChart" (commonProps st) (axes config ++ bars config)%list)
      else if chartType config =? ChartType.LINE then
        ResponsiveContainer
          (El "LineChart" (commonProps st)
             (axes config ++
              mapi (fun key i =>
                      El "Line" [ ("key", JStr key); ("type", JStr "monotone");
                                  ("dataKey", JStr key);
                                  ("stroke", JStr (series_color config i));
                                  ("strokeWidth", JNum 2);
                                  ("dot", JObj [("r", JNum 4)]) ] [])
                   (series_keys config))%list)
      else if chartType config =? ChartType.SCATTER then
        ResponsiveContainer
          (El "ScatterChart" (commonProps st)
             [ Grid;
               El "XAxis" [ ("type", JStr "number");
                            ("dataKey", JStr (xAxisKey config));
                            ("name", opt_str (xLabel config));
                            ("stroke", JStr "#94a3b8") ] [];
               El "YAxis" [ ("type", JStr "number");
                            ("dataKey", JStr (yAxisKey config));
                            ("name", opt_str (yLabel config));
                            ("stroke", JStr "#94a3b8") ] [];
               Tool; space; Leg;
               El "Scatter" [ ("name", JStr (title config));
                              ("data", rows_value (chartData st));
                              ("fill", JStr "#8884d8") ] [] ])
      else if chartType config =? ChartType.PIE then
        ResponsiveContainer
          (El "PieChart" []
             [ El "Pie"
                  [ ("data", rows_value (chartData st));
                    ("dataKey", JStr (or_else (yAxisKey config) "value"));
                    ("nameKey", JStr (or_else (xAxisKey config) "name"));
                    ("cx", JStr "50%"); ("cy", JStr "50%");
                    ("outerRadius", JNum 120); ("fill", JStr "#8884d8");
                    ("label", JBool true) ]
                  (mapi (fun (entry : obj) index =>
                           El "Cell"
                              [ ("key", JStr ("cell-" ++ nat_toString index));
                                ("fill", JStr (cell_color config index)) ] [])
                        (chartData st));
               Tool; space; Leg ])
      else if chartType config =? ChartType.AREA then
        ResponsiveContainer
          (El "AreaChart" (commonProps st)
             (axes config ++
              mapi (fun key i =>
                      El "Area" [ ("key", JStr key); ("type", JStr "monotone");
                                  ("dataKey", JStr key); ("stackId", JStr "1");
                                  ("stroke", JStr (series_color config i));
                                  ("fill", JStr (series_color config i)) ] [])
                   (series_keys config))%list)
      else
        (* Fallback to Composed or Bar *)
        ResponsiveContainer
          (El "ComposedChart" (commonProps st)
             (axes config ++ bars config)%list)
  | _, _ =>
      El "div"
         [("className",
           JStr "text-gray-500 flex items-center justify-center h-64")]
         [Text "No visualization generated yet"]
  end.

(** *** The generate button *)

Record Button : Type := {
  onClick : M unit;
  disabled : bool;
  className : string;
  children : list element
}.

Definition generateButton (st : AppState) : Button :=
  let blocked :=
    loading st || match dataset st with Some _ => false | None => true end in
  {| onClick := handleGenerate;
     disabled := blocked;
     className :=
       String.concat nl [
         "";
         "            w-full py-3 rounded-xl font-semibold flex items-center justify-center gap-2 transition-all";
         "            " ++
           (if blocked
            then "bg-slate-800 text-slate-500 cursor-not-allowed"
            else "bg-indigo-600 hover:bg-indigo-500 text-white shadow-lg shadow-indigo-900/50");
         "          " ];
     children :=
       [ if loading st
         then El "RefreshCw" [("className", JStr "w-4 h-4 animate-spin")] []
         else El "Play" [("className", JStr "w-4 h-4")] [];
         Text (if loading st then "Analyzing..."
               else "Generate Visualization") ] |}.

(** A click on a button: a disabled button dispatches nothing. *)
Definition click (b : Button) : M unit :=
  if disabled b then ret tt else onClick b.

(** The user presses the generate button of the current render. *)
Definition click_generate : M unit :=
  fun w => click (generateButton (ui w)) w.

(** *** The events of the component *)

(** What can happen to the component: its mount, and the user acting on
    one of its controls. *)
Inductive event : Type :=
| Mount
| ChooseCsv (file : option File.t)
| ChooseImage (file : option File.t)
| TypePrompt (text : string)
| PressGenerate
| SelectTab (tab : Tab).

Definition dispatch (e : event) : M unit :=
  match e with
  | Mount => App_mount
  | ChooseCsv file => handleFileUpload file
  | ChooseImage file => handleImageUpload file
  | TypePrompt text => setPrompt text
  | PressGenerate => click_generate
  | SelectTab tab => setActiveTab tab
  end.

(** The initial values of the [useState] cells. *)
Definition initialState : AppState :=
  {| dataset := None; config := None; loading := false; prompt := "";
     imagePreview := None; activeTab := tab_chart |}.

(** The world after a sequence of events, each handler running to its
    end before the next event. *)
Fixpoint run (events : list event) (w : World) : World :=
  match events with
  | [] => w
  | e :: rest => run rest (fst (dispatch e w))
  end.

End Program.

(* ================================================================= *)
(** ** Vocabulary of the properties *)

(** The group a row is counted in: [String(row[xAxisKey])]. *)
Definition group_key (xKey : string) (row : obj) : string :=
  js_String (obj_get row xKey).

(** The two readings of an aggregated entry. *)
Definition entry_name (entry : obj) : jsval := obj_get entry "name".

Definition entry_count (config : VisualizationConfig) (entry : obj) : jsval :=
  obj_get entry (or_else (yAxisKey config) "value").

(** The condition under which the preview aggregates: a pie or bar chart,
    more than twenty rows, and a y-axis key that is empty or ["count"]. *)
Definition aggregation_applies (rows : list obj) (config : VisualizationConfig)
  : Prop :=
  (chartType config = ChartType.PIE \/ chartType config = ChartType.BAR)
  /\ (20 < length rows)%nat
  /\ (yAxisKey config = "" \/ yAxisKey config = "count").

(** A key that a plain object does not inherit from [Object.prototype]. *)
Definition plain_key (k : string) : Prop := Object_prototype_get k = None.

(** What the counter of a group holds after [n] of its rows: nothing
    before the first row, the number [n] afterwards. *)
Definition tally (n : nat) : option jsval :=
  match n with
  | O => None
  | S _ => Some (JNum (Z.of_nat n))
  end.

(** The sum of the numbers stored in an object. *)
Fixpoint total (o : obj) : Z :=
  match o with
  | [] => 0
  | (_, JNum n) :: rest => n + total rest
  | _ :: rest => total rest
  end.

(** How many rows fall in group [k]. *)
Definition group_size (xKey : string) (rows : list obj) (k : string) : nat :=
  count_occ string_dec (map (group_key xKey) rows) k.

(** The invariant of the counting loop over the rows read so far. *)
Definition counted (xKey : string) (rows : list obj) (counts : obj) : Prop :=
  NoDup (map fst counts)
  /\ (forall k, obj_own counts k = tally (group_size xKey rows k))
  /\ total counts = Z.of_nat (length rows).

(** A configuration is only ever stored next to a dataset. *)
Definition config_has_dataset (st : AppState) : Prop :=
  config st <> None -> dataset st <> None.

(** The chart types the rendering switch names. *)
Definition switch_cases : list string :=
  [ChartType.BAR; ChartType.LINE; ChartType.SCATTER; ChartType.PIE;
   ChartType.AREA].

(** The requests recorded in a trace. *)
Definition requests (t : list effect)
  : list GenAI.GenerateContentParameters :=
  flat_map (fun e => match e with
                     | Request _ params => [params]
                     | _ => []
                     end) t.

(** The alerts recorded in a trace. *)
Definition alerts (t : list effect) : list string :=
  flat_map (fun e => match e with
                     | Alert message => [message]
                     | _ => []
                     end) t.

(** The world with another credential in its environment. *)
Definition with_key (k : option string) (w : World) : World :=
  {| env := {| API_KEY := k |}; ui := ui w; trace := trace w |}.

Definition key_error : js_error :=
  Error "API Key not found in environment variables".

Definition generation_alert : string :=
  "AI Generation failed. Please check your API Key or try again.".

(** One generation round around an operation [op] of the service: the
    loading flag, the call, the catch and the finally. *)
Definition generation_with (op : M VisualizationConfig) : M unit :=
  setLoading true ;;
  try_finally
    (try_catch
       (newConfig <- op ;; setConfig (Some newConfig))
       (fun error => console_error error ;; alert generation_alert))
    (setLoading false).

(** [needle] occurs in [text]. *)
Definition occurs_in (needle text : string) : Prop :=
  exists before after, text = before ++ needle ++ after.

(** What follows the first comma of a string, if it has one. *)
Fixpoint after_first_comma (s : string) : option string :=
  match s with
  | EmptyString => None
  | String a rest =>
      if Ascii.eqb a "," then Some rest else after_first_comma rest
  end.

(** What precedes the first comma of a string (all of it without one). *)
Fixpoint up_to_comma (s : string) : string :=
  match s with
  | EmptyString => EmptyString
  | String a rest =>
      if Ascii.eqb a "," then EmptyString else String a (up_to_comma rest)
  end.

(** The payload as the specification words it: the substring after the
    first comma when there is a comma, the string itself otherwise. *)
Definition payload_as_specified (image : string) : string :=
  match after_first_comma image with
  | Some rest => rest
  | None => image
  end.

(** The payload by fields: the text between the first comma and the next
    one (or the end) when that text is not empty, the string itself
    otherwise. *)
Definition payload_by_fields (image : string) : string :=
  match after_first_comma image with
  | Some rest => or_else (up_to_comma rest) image
  | None => image
  end.

(** An image string the stripping is meant for: not empty, and either
    without a comma or made of a header, one comma and a payload that is
    not empty. *)
Definition single_payload (image : string) : Prop :=
  nonempty image = true
  /\ match after_first_comma image with
     | Some rest => after_first_comma rest = None /\ nonempty rest = true
     | None => True
     end.

Section Failures.

Context {platform : Platform}.

(** The shape both operations of the service share: the client, the
    request, the reading of the response. *)
Definition call_model (params : GenAI.GenerateContentParameters)
  : M VisualizationConfig :=
  ai <- getAiClient ;;
  text <- models_generateContent ai params ;;
  read_response text.

(** The request [handleGenerate] hands to the model in state [st]. *)
Definition pending_request (st : AppState) (ds : Dataset)
  : GenAI.GenerateContentParameters :=
  match config st with
  | Some c =>
      if nonempty (prompt st) && negb (present (imagePreview st))
      then refine_request c (prompt st)
      else analyze_request (imagePreview st) (data ds) (columns ds)
             (or_else (prompt st) "Visualize this data effectively")
  | None =>
      analyze_request (imagePreview st) (data ds) (columns ds)
        (or_else (prompt st) "Visualize this data effectively")
  end.

(** The ways the generation call fails, with the value it throws: no
    credential, a rejected promise, a response without text, a text that
    does not parse. *)
Inductive generation_fails (w : World) (ds : Dataset) : js_error -> Prop :=
| missing_credential :
    present (API_KEY (env w)) = false ->
    generation_fails w ds key_error
| rejected_promise : forall k reason,
    API_KEY (env w) = Some k -> nonempty k = true ->
    generateContent {| GenAI.apiKey := k |} (pending_request (ui w) ds)
      = GenAI.Rejects reason ->
    generation_fails w ds reason
| missing_payload : forall k text,
    API_KEY (env w) = Some k -> nonempty k = true ->
    generateContent {| GenAI.apiKey := k |} (pending_request (ui w) ds)
      = GenAI.Resolves text ->
    present text = false ->
    generation_fails w ds (Error "No response from AI")
| malformed_payload : forall k text reason,
    API_KEY (env w) = Some k -> nonempty k = true ->
    generateContent {| GenAI.apiKey := k |} (pending_request (ui w) ds)
      = GenAI.Resolves (Some text) ->
    nonempty text = true ->
    JSON_parse text = Thrown reason ->
    generation_fails w ds reason.

(** The ways the parse of an uploaded file fails, with the value the
    promise of [parseCSV] rejects with. *)
Inductive parse_fails (file : File.t) : js_error -> Prop :=
| parser_error : forall err,
    Papa_parse (OfFile file) parse_options = Papa.error err ->
    parse_fails file err
| no_fields : forall results,
    Papa_parse (OfFile file) parse_options = Papa.complete results ->
    Papa.fields (Papa.meta results) = None ->
    parse_fails file (Error "Could not parse columns from CSV").

End Failures.

(* ================================================================= *)
(** ** Sample inputs *)

Module Sample.

Definition bar_by_role : VisualizationConfig :=
  {| chartType := ChartType.BAR; xAxisKey := "Role"; yAxisKey := "";
     seriesKeys := None; groupBy := None; title := "Roles";
     description := "Rows per role"; colors := None; xLabel := None;
     yLabel := None; rCode := None; pythonCode := None |}.

Definition radar_by_class : VisualizationConfig :=
  {| chartType := ChartType.RADAR; xAxisKey := "Pclass"; yAxisKey := "Fare";
     seriesKeys := Some ["Fare"; "Age"]; groupBy := None; title := "Classes";
     description := ""; colors := Some ["#000000"]; xLabel := None;
     yLabel := None; rCode := None; pythonCode := None |}.

Definition passenger (id pclass age : Z) : obj :=
  [ ("PassengerId", JNum id); ("Pclass", JNum pclass); ("Age", JNum age) ].

Definition passengers : list obj :=
  [ passenger 1 3 22; passenger 2 1 38; passenger 3 3 26; passenger 4 1 35 ].

Definition titanic : Dataset :=
  {| name := "Titanic Dataset"; data := passengers;
     columns := ["PassengerId"; "Pclass"; "Age"] |}.

Definition upload : File.t :=
  {| File.name := "roles.csv"; File.content := "Role" ++ nl ++ "editor" |}.

(** A platform whose parser accepts every input as one [Role] column and
    whose model always answers with [bar_by_role]. *)
Definition friendly : Platform :=
  {| JSON_stringify := fun _ _ => "{}";
     JSON_parse := fun _ => Returned bar_by_role;
     generateContent := fun _ _ => GenAI.Resolves (Some "{}");
     Papa_parse := fun _ _ =>
       Papa.complete {| Papa.data := [[("Role", JStr "editor")]];
                        Papa.meta := {| Papa.fields := Some ["Role"] |} |};
     FileReader_readAsDataURL := fun _ => Some "data:image/png;base64,AAAA" |}.

(** A platform whose parser and whose model both fail. *)
Definition hostile : Platform :=
  {| JSON_stringify := fun _ _ => "{}";
     JSON_parse := fun _ => Thrown (Error "SyntaxError");
     generateContent := fun _ _ => GenAI.Rejects (Error "503");
     Papa_parse := fun _ _ => Papa.error (Error "NotReadableError");
     FileReader_readAsDataURL := fun _ => None |}.

(** Twenty-one rows whose role is the word [constructor]. *)
Definition constructors : list obj :=
  repeat [("Role", JStr "constructor")] 21.

(** Twenty-five rows in three categories, ten, ten and five of each. *)
Definition categories : list obj :=
  (repeat [("Role", JStr "editor")] 10
   ++ repeat [("Role", JStr "author")] 10
   ++ repeat [("Role", JStr "reviewer")] 5)%list.

(** Twenty-one rows whose role spells [__proto__]. *)
Definition protos : list obj := repeat [("Role", JStr "__proto__")] 21.

(** The six [Pclass] values of the example scenario. *)
Definition six_classes : list obj :=
  map (fun c => [("Pclass", JNum c)]) [1; 1; 2; 3; 3; 3]%Z.

Definition idle : AppState :=
  {| dataset := Some titanic; config := Some radar_by_class;
     loading := false; prompt := "use a darker palette";
     imagePreview := None; activeTab := tab_chart |}.

Definition busy : AppState := with_loading true idle.

Definition world (key : option string) (st : AppState) : World :=
  {| env := {| API_KEY := key |}; ui := st; trace := [] |}.

End Sample.

(* ================================================================= *)
(** ** The workspace of the component *)

(** What [renderChart] returns before a configuration and a dataset are
    there. *)
Definition placeholder : element :=
  El "div"
     [("className",
       JStr "text-gray-500 flex items-center justify-center h-64")]
     [Text "No visualization generated yet"].

(** [{config && (<div className="mb-4"> ... </div>)}]. *)
Definition configHeader (st : AppState) : list element :=
  match config st with
  | Some config =>
      [ El "div" [("className", JStr "mb-4")]
           [ El "h2" [("className", JStr "text-xl font-bold text-white mb-1")]
                [Text (title config)];
             El "p" [("className", JStr "text-sm text-slate-400")]
                [Text (description config)] ] ]
  | None => []
  end.

(** [config?.rCode || fallback] and [config?.pythonCode || fallback]. *)
Definition code_or (code : VisualizationConfig -> option string)
    (fallback : string) (st : AppState) : string :=
  match config st with
  | Some config =>
      match code config with
      | Some text => or_else text fallback
      | None => fallback
      end
  | None => fallback
  end.

(** The panel under the tabs: the chart, or one of the two code
    listings. *)
Definition outputPanel (st : AppState) : element :=
  El "div"
     [("className",
       JStr "flex-grow min-h-0 bg-slate-900/50 rounded-xl border border-slate-800 p-4 overflow-auto")]
     match activeTab st with
     | tab_chart => [renderChart st]
     | tab_r =>
         [ El "pre"
              [("className",
                JStr "text-xs sm:text-sm font-mono text-blue-200 p-4")]
              [ El "code" []
                   [Text (code_or rCode "# R code will appear here" st)] ] ]
     | tab_python =>
         [ El "pre"
              [("className",
                JStr "text-xs sm:text-sm font-mono text-yellow-200 p-4")]
              [ El "code" []
                   [Text (code_or pythonCode
                            "# Python code will appear here" st)] ] ]
     end.

Definition workspace (st : AppState) : element :=
  El "div"
     [("className",
       JStr "flex-grow relative bg-slate-800/50 rounded-2xl border border-slate-700/50 p-6 flex flex-col")]
     (configHeader st ++ [outputPanel st])%list.

(* ================================================================= *)
(** ** More vocabulary *)

(** The elements of a list, each kept where it first occurs. *)
Definition distinct_in_order (l : list string) : list string :=
  fold_left (fun seen k => if mem_string k seen then seen else (seen ++ [k])%list)
            l [].

(** The groups of the rows that reach the counters: every group but the
    one spelled [__proto__]. *)
Definition counted_keys (xKey : string) (rows : list obj) : list string :=
  filter (fun k => negb (k =? "__proto__")) (map (group_key xKey) rows).

(** Where [obj_insert_index] puts a fresh array index, read on the keys
    alone. *)
Fixpoint insert_key (n : N) (k : string) (ks : list string) : list string :=
  match ks with
  | [] => [k]
  | k' :: rest =>
      match array_index k' with
      | Some m => if (m <? n)%N then k' :: insert_key n k rest else k :: ks
      | None => k :: ks
      end
  end.

Definition is_index (k : string) : bool :=
  match array_index k with
  | Some _ => true
  | None => false
  end.

(** The event is the choice of an image file. *)
Definition chooses_image (e : event) : bool :=
  match e with
  | ChooseImage (Some _) => true
  | _ => false
  end.

Definition presses_generate (e : event) : bool :=
  match e with
  | PressGenerate => true
  | _ => false
  end.

(** Sample inputs of the properties below. *)
Module Palette.

Definition two_tone : VisualizationConfig :=
  {| chartType := ChartType.PIE; xAxisKey := "Role"; yAxisKey := "";
     seriesKeys := None; groupBy := None; title := "Roles";
     description := ""; colors := Some ["#111111"; "#eeeeee"];
     xLabel := None; yLabel := None; rCode := Some "ggplot(df)";
     pythonCode := None |}.

(** Twenty-one rows whose groups are numbers and words, out of order. *)
Definition mixed : list obj :=
  (map (fun c => [("Role", c)])
       [JNum 3; JStr "b"; JNum 10; JStr "a"; JNum 1]
   ++ repeat [("Role", JStr "b")] 16)%list.

(** A state with a reference image loaded. *)
Definition styled : AppState :=
  with_imagePreview (Some "data:image/png;base64,AAAA") Sample.idle.

End Palette.

(* ================================================================= *)
(** ** Properties of the service and of the handlers *)

Section Properties.

Context {platform : Platform}.

(** *** Strings *)

Lemma append_assoc (a b c : string) : (a ++ b) ++ c = a ++ (b ++ c).
Proof.
  induction a as [|x a IH]; simpl; [reflexivity|]. now rewrite IH.
Qed.

Lemma append_nil_r (a : string) : a ++ "" = a.
Proof.
  induction a as [|x a IH]; simpl; [reflexivity|]. now rewrite IH.
Qed.

(** *** The credential *)

Lemma getAiClient_absent (w : World) :
  present (API_KEY (env w)) = false ->
  getAiClient w = (w, Thrown key_error).
Proof.
  unfold getAiClient, present, throw, key_error.
  destruct (API_KEY (env w)) as [k|]; [|reflexivity].
  intros Hk. rewrite Hk. reflexivity.
Qed.

Lemma getAiClient_present (w : World) (k : string) :
  API_KEY (env w) = Some k -> nonempty k = true ->
  getAiClient w = (w, Returned {| GenAI.apiKey := k |}).
Proof.
  unfold getAiClient, ret. intros -> ->. reflexivity.
Qed.

Lemma analyzeImageAndData_call image sample cols text :
  analyzeImageAndData image sample cols text
  = call_model (analyze_request image sample cols text).
Proof. reflexivity. Qed.

Lemma refineConfig_call c text :
  refineConfig c text = call_model (refine_request c text).
Proof. reflexivity. Qed.

Lemma call_model_absent (w : World) params :
  present (API_KEY (env w)) = false ->
  call_model params w = (w, Thrown key_error).
Proof.
  intros Hk. unfold call_model, bind.
  rewrite (getAiClient_absent w Hk). reflexivity.
Qed.

(** With a credential the request is sent, and the call ends as the
    promise settles. *)
Lemma call_model_present (w : World) params (k : string) :
  API_KEY (env w) = Some k -> nonempty k = true ->
  call_model params w =
    let w1 := {| env := env w; ui := ui w;
                 trace := (trace w ++ [Request {| GenAI.apiKey := k |} params])%list |} in
    match generateContent {| GenAI.apiKey := k |} params with
    | GenAI.Rejects reason => (w1, Thrown reason)
    | GenAI.Resolves text => read_response text w1
    end.
Proof.
  intros Hk Hne. unfold call_model, bind at 1.
  rewrite (getAiClient_present w k Hk Hne).
  unfold models_generateContent, bind, emit. simpl.
  destruct (generateContent _ params); reflexivity.
Qed.

Lemma read_response_pure (text : option string) (w : World) :
  fst (read_response text w) = w.
Proof.
  unfold read_response. destruct text as [t|]; [|reflexivity].
  destruct (nonempty t); [|reflexivity].
  destruct (JSON_parse t); reflexivity.
Qed.

Lemma with_key_absent_id (w : World) :
  API_KEY (env w) = None -> with_key None w = w.
Proof.
  destruct w as [[k] st t]. simpl. intros ->. reflexivity.
Qed.

(** *** Loading a dataset *)

Lemma parse_promise_pure (input : PapaInput) (w : World) :
  fst (parse_promise input w) = w.
Proof.
  unfold parse_promise.
  destruct (Papa_parse input parse_options) as [results|err]; [|reflexivity].
  destruct (Papa.fields (Papa.meta results)); reflexivity.
Qed.

Lemma parse_promise_key (input : PapaInput) (k : option string) (w : World) :
  parse_promise input (with_key k w)
  = (with_key k w, snd (parse_promise input w)).
Proof.
  unfold parse_promise.
  destruct (Papa_parse input parse_options) as [results|err]; [|reflexivity].
  destruct (Papa.fields (Papa.meta results)); reflexivity.
Qed.

Lemma parseCSV_fails (file : File.t) (err : js_error) (w : World) :
  parse_fails file err -> parseCSV file w = (w, Thrown err).
Proof.
  intros H. unfold parseCSV, parse_promise.
  destruct H as [err E | results E F]; rewrite E; [reflexivity|].
  rewrite F. reflexivity.
Qed.

Lemma App_mount_key (k : option string) (w : World) :
  App_mount (with_key k w)
  = (with_key k (fst (App_mount w)), snd (App_mount w)).
Proof.
  unfold App_mount, bind, loadExampleTitanic.
  rewrite parse_promise_key.
  pose proof (parse_promise_pure (OfString rawData) w) as Hp.
  destruct (parse_promise (OfString rawData) w) as [w1 [res|e]];
    simpl in Hp; subst w1; reflexivity.
Qed.

Lemma handleFileUpload_key (k : option string) (file : option File.t)
    (w : World) :
  handleFileUpload file (with_key k w)
  = (with_key k (fst (handleFileUpload file w)),
     snd (handleFileUpload file w)).
Proof.
  destruct file as [file|]; [|reflexivity].
  unfold handleFileUpload, try_catch, bind, parseCSV.
  rewrite parse_promise_key.
  pose proof (parse_promise_pure (OfFile file) w) as Hp.
  destruct (parse_promise (OfFile file) w) as [w1 [res|e]];
    simpl in Hp; subst w1; reflexivity.
Qed.

Lemma handleFileUpload_returns (file : option File.t) (w : World) :
  snd (handleFileUpload file w) = Returned tt.
Proof.
  destruct file as [file|]; [|reflexivity].
  unfold handleFileUpload, try_catch, bind.
  destruct (parseCSV file w) as [w1 [res|e]]; reflexivity.
Qed.

(** C9.  Without an API key in the process environment both operations of
    the service throw the configuration error as soon as they are called,
    in the world they were called in: no request has been sent.  The
    start-up effect and the dataset upload never look at the key: they end
    exactly as they do with a key, and the upload handler never throws. *)
Theorem missing_key_fails_at_call_time (w : World) :
  present (API_KEY (env w)) = false ->
  (forall image sample cols text,
      analyzeImageAndData image sample cols text w = (w, Thrown key_error))
  /\ (forall c text, refineConfig c text w = (w, Thrown key_error))
  /\ (forall k,
        App_mount (with_key k w)
        = (with_key k (fst (App_mount w)), snd (App_mount w)))
  /\ (forall k file,
        handleFileUpload file (with_key k w)
        = (with_key k (fst (handleFileUpload file w)),
           snd (handleFileUpload file w)))
  /\ (forall file, snd (handleFileUpload file w) = Returned tt).
Proof.
  intros Hk. repeat split; intros.
  - rewrite analyzeImageAndData_call. now apply call_model_absent.
  - rewrite refineConfig_call. now apply call_model_absent.
  - apply App_mount_key.
  - apply handleFileUpload_key.
  - apply handleFileUpload_returns.
Qed.

(** C5.  When the parser completes with header fields, the upload handler
    stores the dataset made of the file name, the parsed rows and the parsed
    columns, and resets the configuration to null; nothing else changes and
    nothing is reported. *)
Theorem upload_replaces_dataset_and_clears_config
    (w : World) (file : File.t) (results : Papa.ParseResult)
    (cols : list string) :
  Papa_parse (OfFile file) parse_options = Papa.complete results ->
  Papa.fields (Papa.meta results) = Some cols ->
  let uploaded := {| name := File.name file; data := Papa.data results;
                     columns := cols |} in
  handleFileUpload (Some file) w
  = ({| env := env w;
        ui := with_config None (with_dataset (Some uploaded) (ui w));
        trace := trace w |}, Returned tt)
  /\ dataset (ui (fst (handleFileUpload (Some file) w))) = Some uploaded
  /\ config (ui (fst (handleFileUpload (Some file) w))) = None.
Proof.
  intros E F uploaded.
  assert (handleFileUpload (Some file) w
          = ({| env := env w;
                ui := with_config None (with_dataset (Some uploaded) (ui w));
                trace := trace w |}, Returned tt)) as Hrun.
  { unfold handleFileUpload, try_catch, bind, parseCSV, parse_promise.
    rewrite E, F. reflexivity. }
  rewrite Hrun. repeat split.
Qed.

(** C6.  When the parse fails (the parser calls [error], or completes
    without header fields), the upload handler logs the error, shows the
    alert and leaves the whole state as it was: dataset and configuration
    are the previous ones. *)
Theorem upload_failure_keeps_state
    (w : World) (file : File.t) (err : js_error) :
  parse_fails file err ->
  handleFileUpload (Some file) w
  = ({| env := env w; ui := ui w;
        trace := (trace w ++ [ConsoleError err; Alert "Failed to parse CSV"])%list |},
     Returned tt).
Proof.
  intros H. unfold handleFileUpload, try_catch, bind at 1.
  unfold bind at 1.
  rewrite (parseCSV_fails file err w H).
  unfold bind, console_error, alert, emit. simpl.
  rewrite <- app_assoc. reflexivity.
Qed.

Lemma click_disabled (w : World) :
  disabled (generateButton (ui w)) = true ->
  click_generate w = (w, Returned tt).
Proof.
  intros H. unfold click_generate, click. rewrite H. reflexivity.
Qed.

(** The world in which a round awaits the model (the one [setLoading(true)]
    leaves) has its generate button disabled: pressing it there changes
    nothing. *)
Lemma pending_round_blocks_button (w : World) :
  let pending := fst (setLoading true w) in
  loading (ui pending) = true
  /\ click_generate pending = (pending, Returned tt).
Proof.
  split; [reflexivity|]. apply click_disabled. reflexivity.
Qed.

(** C4.  While the loading flag is set the generate button is disabled: a
    click runs no handler, so no request is sent and no state cell
    changes. *)
Theorem generate_ignored_while_loading (w : World) :
  loading (ui w) = true ->
  click_generate w = (w, Returned tt).
Proof.
  intros H. apply click_disabled.
  unfold generateButton. simpl. rewrite H. reflexivity.
Qed.

(** C10.  The request of the full generation depends on the data only
    through its first three rows. *)
Theorem prompt_reads_first_three_rows
    (image : option string) (cols : list string) (text : string)
    (d1 d2 : list obj) :
  firstn 3 d1 = firstn 3 d2 ->
  analyze_request image d1 cols text = analyze_request image d2 cols text
  /\ forall w, analyzeImageAndData image d1 cols text w
               = analyzeImageAndData image d2 cols text w.
Proof.
  intros H.
  assert (analyze_request image d1 cols text
          = analyze_request image d2 cols text) as Hreq.
  { unfold analyze_request, analyze_prompt. rewrite H. reflexivity. }
  split; [exact Hreq|].
  intros w. rewrite !analyzeImageAndData_call, Hreq. reflexivity.
Qed.

(** *** One generation round *)

Lemma handleGenerate_round (w : World) (ds : Dataset) :
  dataset (ui w) = Some ds ->
  handleGenerate w
  = generation_with (call_model (pending_request (ui w) ds)) w.
Proof.
  intros H. unfold handleGenerate. rewrite H.
  unfold pending_request, generation_with.
  destruct (config (ui w)) as [c|]; [|reflexivity].
  destruct (nonempty (prompt (ui w)) && negb (present (imagePreview (ui w))));
    reflexivity.
Qed.

Lemma generation_with_thrown (op : M VisualizationConfig) (w w2 : World)
    (e : js_error) :
  op {| env := env w; ui := with_loading true (ui w); trace := trace w |}
    = (w2, Thrown e) ->
  generation_with op w
  = ({| env := env w2; ui := with_loading false (ui w2);
        trace := (trace w2 ++ [ConsoleError e; Alert generation_alert])%list |},
     Returned tt).
Proof.
  intros H.
  unfold generation_with, bind, try_finally, try_catch, setLoading, modify.
  rewrite H. unfold console_error, alert, emit. simpl.
  rewrite <- app_assoc. reflexivity.
Qed.

Lemma generation_with_returned (op : M VisualizationConfig) (w w2 : World)
    (c : VisualizationConfig) :
  op {| env := env w; ui := with_loading true (ui w); trace := trace w |}
    = (w2, Returned c) ->
  generation_with op w
  = ({| env := env w2;
        ui := with_loading false (with_config (Some c) (ui w2));
        trace := trace w2 |},
     Returned tt).
Proof.
  intros H.
  unfold generation_with, bind, try_finally, try_catch, setLoading, modify.
  rewrite H. reflexivity.
Qed.

Lemma requests_app (t1 t2 : list effect) :
  requests (t1 ++ t2) = (requests t1 ++ requests t2)%list.
Proof. apply flat_map_app. Qed.

Lemma alerts_app (t1 t2 : list effect) :
  alerts (t1 ++ t2) = (alerts t1 ++ alerts t2)%list.
Proof. apply flat_map_app. Qed.

(** A round never sends anything but what its operation sends. *)
Lemma generation_with_requests (op : M VisualizationConfig) (w : World) :
  requests (trace (fst (generation_with op w)))
  = requests
      (trace (fst (op {| env := env w; ui := with_loading true (ui w);
                         trace := trace w |}))).
Proof.
  destruct (op {| env := env w; ui := with_loading true (ui w);
                  trace := trace w |}) as [w2 [c|e]] eqn:E.
  - rewrite (generation_with_returned op w w2 c E). reflexivity.
  - rewrite (generation_with_thrown op w w2 e E). simpl.
    rewrite requests_app. simpl. apply app_nil_r.
Qed.

Lemma call_model_requests (w : World) params :
  requests (trace (fst (call_model params w)))
  = (requests (trace w)
     ++ (if present (API_KEY (env w)) then [params] else []))%list.
Proof.
  destruct (present (API_KEY (env w))) eqn:Hk.
  - unfold present in Hk. destruct (API_KEY (env w)) as [k|] eqn:Ek;
      [|discriminate].
    rewrite (call_model_present w params k Ek Hk). cbv zeta.
    destruct (generateContent _ params) as [reason|text].
    + simpl. rewrite requests_app. reflexivity.
    + rewrite read_response_pure. simpl. rewrite requests_app. reflexivity.
  - rewrite (call_model_absent w params Hk). simpl.
    symmetry. apply app_nil_r.
Qed.

(** A failed call throws in a world whose state is untouched and whose
    trace has gained no alert. *)
Lemma call_model_fails (w : World) (ds : Dataset) (err : js_error)
    (st : AppState) :
  generation_fails w ds err ->
  exists sent,
    call_model (pending_request (ui w) ds)
      {| env := env w; ui := st; trace := trace w |}
    = ({| env := env w; ui := st; trace := (trace w ++ sent)%list |},
       Thrown err)
    /\ alerts sent = [].
Proof.
  intros H. destruct H as [Hk | k reason Ek Hne E | k text Ek Hne E Ht
                          | k text reason Ek Hne E Ht Hp].
  - exists []. split; [|reflexivity].
    rewrite call_model_absent by exact Hk. rewrite app_nil_r. reflexivity.
  - eexists. split; [|shelve].
    rewrite (call_model_present _ _ k) by assumption. cbv zeta.
    rewrite E. reflexivity.
    Unshelve. reflexivity.
  - eexists. split; [|shelve].
    rewrite (call_model_present _ _ k) by assumption. cbv zeta.
    rewrite E. unfold read_response, present in *.
    destruct text as [t|]; [rewrite Ht|]; reflexivity.
    Unshelve. reflexivity.
  - eexists. split; [|shelve].
    rewrite (call_model_present _ _ k) by assumption. cbv zeta.
    rewrite E. unfold read_response. rewrite Ht, Hp. reflexivity.
    Unshelve. reflexivity.
Qed.

(** C3.  When the generation call fails (no credential, a rejected
    promise, a response without text, or a text that does not parse),
    [handleGenerate] completes normally, the failure alert has been shown,
    the loading flag is false and every other state cell, the configuration
    and the dataset among them, is what it was before. *)
Theorem generation_failure_keeps_config
    (w : World) (ds : Dataset) (err : js_error) :
  dataset (ui w) = Some ds ->
  generation_fails w ds err ->
  let w' := fst (handleGenerate w) in
  snd (handleGenerate w) = Returned tt
  /\ alerts (trace w') = (alerts (trace w) ++ [generation_alert])%list
  /\ In (Alert generation_alert) (trace w')
  /\ ui w' = with_loading false (ui w)
  /\ loading (ui w') = false
  /\ config (ui w') = config (ui w)
  /\ dataset (ui w') = dataset (ui w).
Proof.
  intros Hds Hfail w'. subst w'.
  rewrite (handleGenerate_round w ds Hds).
  destruct (call_model_fails w ds err (with_loading true (ui w)) Hfail)
    as [sent [Hcall Hsent]].
  rewrite (generation_with_thrown _ w _ err Hcall). simpl.
  repeat split.
  - rewrite !alerts_app, Hsent, app_nil_r. reflexivity.
  - apply in_or_app. right. right. left. reflexivity.
Qed.

(** C7.  With a dataset loaded, [handleGenerate] refines exactly when there
    is a configuration, the instruction is not empty and no image is
    present: the round is then the one around [refineConfig], whose request
    carries the serialized configuration inside a plain-text prompt and no
    image; in every other case the round is the one around
    [analyzeImageAndData].  With a credential, that request is the one
    request the handler sends. *)
Theorem generate_selects_operation (w : World) (ds : Dataset) :
  dataset (ui w) = Some ds ->
  let st := ui w in
  let sent := requests (trace (fst (handleGenerate w))) in
  (forall c,
      config st = Some c ->
      nonempty (prompt st) = true ->
      present (imagePreview st) = false ->
      handleGenerate w = generation_with (refineConfig c (prompt st)) w
      /\ (present (API_KEY (env w)) = true ->
          sent = (requests (trace w) ++ [refine_request c (prompt st)])%list)
      /\ GenAI.inline_images (refine_request c (prompt st)) = []
      /\ exists text,
           GenAI.contents (refine_request c (prompt st))
             = GenAI.ContentsString text
           /\ occurs_in (JSON_stringify c) text)
  /\ (config st = None \/ nonempty (prompt st) = false
      \/ present (imagePreview st) = true ->
      let fresh :=
        analyzeImageAndData (imagePreview st) (data ds) (columns ds)
          (or_else (prompt st) "Visualize this data effectively") in
      handleGenerate w = generation_with fresh w
      /\ (present (API_KEY (env w)) = true ->
          sent = (requests (trace w)
                  ++ [analyze_request (imagePreview st) (data ds) (columns ds)
                        (or_else (prompt st)
                           "Visualize this data effectively")])%list)).
Proof.
  intros Hds st sent. subst sent.
  rewrite (handleGenerate_round w ds Hds).
  rewrite generation_with_requests, call_model_requests. cbn [env ui trace].
  split.
  - intros c Hc Hp Hi.
    assert (pending_request (ui w) ds = refine_request c (prompt st)) as Hreq.
    { unfold pending_request. fold st. rewrite Hc, Hp, Hi. reflexivity. }
    rewrite Hreq. repeat split.
    + intros ->. reflexivity.
    + eexists. split; [reflexivity|].
      unfold refine_prompt, occurs_in.
      exists (nl ++ "    Current Configuration: "). eexists.
      simpl String.concat.
      rewrite !append_assoc. reflexivity.
  - intros Hcase. cbv zeta.
    assert (pending_request (ui w) ds
            = analyze_request (imagePreview st) (data ds) (columns ds)
                (or_else (prompt st) "Visualize this data effectively"))
      as Hreq.
    { unfold pending_request. fold st.
      destruct (config st) as [c|]; [|reflexivity].
      destruct Hcase as [Hc | [Hp | Hi]]; [discriminate | |].
      - rewrite Hp. reflexivity.
      - rewrite Hi, andb_false_r. reflexivity. }
    rewrite Hreq. split; [reflexivity|].
    intros ->. reflexivity.
Qed.

(** *** A configuration never outlives the absence of a dataset *)

Lemma call_model_ui (params : GenAI.GenerateContentParameters) (w : World) :
  ui (fst (call_model params w)) = ui w.
Proof.
  destruct (present (API_KEY (env w))) eqn:Hk.
  - unfold present in Hk.
    destruct (API_KEY (env w)) as [k|] eqn:Ek; [|discriminate].
    rewrite (call_model_present w params k Ek Hk). cbv zeta.
    destruct (generateContent _ params) as [reason|text]; [reflexivity|].
    now rewrite read_response_pure.
  - now rewrite (call_model_absent w params Hk).
Qed.

Lemma generation_with_dataset (params : GenAI.GenerateContentParameters)
    (w : World) :
  dataset (ui (fst (generation_with (call_model params) w)))
  = dataset (ui w).
Proof.
  pose proof (call_model_ui params
                {| env := env w; ui := with_loading true (ui w);
                   trace := trace w |}) as Hui.
  destruct (call_model params _) as [w2 [c|e]] eqn:E; simpl in Hui.
  - rewrite (generation_with_returned _ w w2 c E). simpl. now rewrite Hui.
  - rewrite (generation_with_thrown _ w w2 e E). simpl. now rewrite Hui.
Qed.

Lemma dispatch_keeps_config_with_dataset (e : event) (w : World) :
  config_has_dataset (ui w) ->
  config_has_dataset (ui (fst (dispatch e w))).
Proof.
  unfold config_has_dataset. intros Hinv.
  destruct e as [|file|file|text| |tab]; simpl.
  - unfold App_mount, bind, loadExampleTitanic.
    pose proof (parse_promise_pure (OfString rawData) w) as Hp.
    destruct (parse_promise (OfString rawData) w) as [w1 [res|err]];
      simpl in Hp; subst w1; simpl; [discriminate|exact Hinv].
  - destruct file as [file|]; [|exact Hinv].
    unfold handleFileUpload, try_catch, bind, parseCSV.
    pose proof (parse_promise_pure (OfFile file) w) as Hp.
    destruct (parse_promise (OfFile file) w) as [w1 [res|err]];
      simpl in Hp; subst w1; simpl; [congruence|exact Hinv].
  - destruct file as [file|]; exact Hinv.
  - exact Hinv.
  - unfold click_generate, click. simpl.
    destruct (loading (ui w)
              || match dataset (ui w) with Some _ => false | None => true end);
      [exact Hinv|].
    destruct (dataset (ui w)) as [ds|] eqn:Hds.
    + rewrite (handleGenerate_round w ds Hds), generation_with_dataset, Hds.
      discriminate.
    + unfold handleGenerate. rewrite Hds. simpl. rewrite Hds. exact Hinv.
  - exact Hinv.
Qed.

(** After any sequence of events from the initial state, a stored
    configuration has a dataset next to it: the renderer then reaches its
    switch. *)
Lemma stored_config_has_dataset (key : option string) (events : list event) :
  config_has_dataset
    (ui (run events {| env := {| API_KEY := key |}; ui := initialState;
                       trace := [] |})).
Proof.
  assert (forall w, config_has_dataset (ui w) ->
                    config_has_dataset (ui (run events w))) as Hrun.
  { induction events as [|e events IH]; intros w Hinv; [exact Hinv|].
    simpl. apply IH, dispatch_keeps_config_with_dataset, Hinv. }
  apply Hrun. unfold config_has_dataset. simpl. congruence.
Qed.

(** *** The image payload *)

Lemma split_comma_fields (s : string) :
  split "," s
  = up_to_comma s :: match after_first_comma s with
                     | Some rest => split "," rest
                     | None => []
                     end.
Proof.
  induction s as [|a rest IH]; [reflexivity|].
  simpl. destruct (Ascii.eqb a ","); [reflexivity|].
  rewrite IH. reflexivity.
Qed.

Lemma second_field (s : string) :
  nth_error (split "," s) 1 = option_map up_to_comma (after_first_comma s).
Proof.
  rewrite split_comma_fields. simpl.
  destruct (after_first_comma s) as [rest|]; [|reflexivity].
  rewrite split_comma_fields. reflexivity.
Qed.

Lemma cleanBase64_by_fields (image : string) :
  cleanBase64 image = payload_by_fields image.
Proof.
  unfold cleanBase64, payload_by_fields. rewrite second_field.
  destruct (after_first_comma image); reflexivity.
Qed.

Lemma after_first_comma_app (header payload : string) :
  after_first_comma header = None ->
  after_first_comma (header ++ "," ++ payload) = Some payload.
Proof.
  induction header as [|a header IH]; simpl; [reflexivity|].
  destruct (Ascii.eqb a ","); [discriminate|]. exact IH.
Qed.

Lemma up_to_comma_id (s : string) :
  after_first_comma s = None -> up_to_comma s = s.
Proof.
  induction s as [|a s IH]; simpl; [reflexivity|].
  destruct (Ascii.eqb a ","); [discriminate|].
  intros H. now rewrite IH.
Qed.

(** A data URL, one header and one comma-free payload that is not empty,
    is sent without its header. *)
Lemma cleanBase64_data_url (header payload : string) :
  after_first_comma header = None ->
  after_first_comma payload = None ->
  nonempty payload = true ->
  cleanBase64 (header ++ "," ++ payload) = payload.
Proof.
  intros Hh Hp Hne. rewrite cleanBase64_by_fields. unfold payload_by_fields.
  rewrite (after_first_comma_app header payload Hh).
  rewrite (up_to_comma_id payload Hp). unfold or_else. now rewrite Hne.
Qed.

(** What the code sends for every image argument.  A null or empty image
    adds no part to the request.  Any other image adds one part, whose
    payload is the text between the first comma and the next comma (or the
    end of the string) when the string has a comma and that text is not
    empty, and the whole string otherwise. *)
Lemma image_payload_by_fields
    (image : option string) (sample : list obj) (cols : list string)
    (text prompt : string) :
  analyze_parts image prompt
  = match image with
    | Some i =>
        if nonempty i
        then [GenAI.TextPart prompt;
              GenAI.InlineDataPart "image/png" (payload_by_fields i)]
        else [GenAI.TextPart prompt]
    | None => [GenAI.TextPart prompt]
    end
  /\ GenAI.inline_images (analyze_request image sample cols text)
     = match image with
       | Some i => if nonempty i then [payload_by_fields i] else []
       | None => []
       end.
Proof.
  unfold analyze_request, GenAI.inline_images, analyze_parts. simpl.
  destruct image as [i|]; [|split; reflexivity].
  destruct (nonempty i); [|split; reflexivity].
  rewrite cleanBase64_by_fields. split; reflexivity.
Qed.

Lemma payload_by_fields_single (image : string) :
  single_payload image -> payload_by_fields image = payload_as_specified image.
Proof.
  unfold single_payload, payload_by_fields, payload_as_specified.
  intros [_ H]. destruct (after_first_comma image) as [rest|]; [|reflexivity].
  destruct H as [Hrest Hne].
  rewrite (up_to_comma_id rest Hrest). unfold or_else. now rewrite Hne.
Qed.

(** C8.  For an image string that is not empty and has at most
    one comma, with something after the comma, the request carries one
    image part whose payload is the substring after the comma when there
    is one, and the string itself otherwise.  For the empty string and for
    a null image, the request carries no image part. *)
Theorem image_payload_stripped
    (image : string) (sample : list obj) (cols : list string)
    (text : string) :
  single_payload image ->
  GenAI.inline_images (analyze_request (Some image) sample cols text)
    = [payload_as_specified image]
  /\ analyze_parts (Some image) (analyze_prompt sample cols text)
     = [ GenAI.TextPart (analyze_prompt sample cols text);
         GenAI.InlineDataPart "image/png" (payload_as_specified image) ]
  /\ GenAI.inline_images (analyze_request (Some "") sample cols text) = []
  /\ GenAI.inline_images (analyze_request None sample cols text) = [].
Proof.
  intros Hsingle.
  destruct (image_payload_by_fields (Some image) sample cols text
              (analyze_prompt sample cols text)) as [Hparts Himages].
  destruct Hsingle as [Hne Hshape]. rewrite Hne in Hparts, Himages.
  rewrite (payload_by_fields_single image (conj Hne Hshape))
    in Hparts, Himages.
  repeat split; assumption || reflexivity.
Qed.

(** *** The rendering switch *)

Lemma chartData_raw (st : AppState) (cfg : VisualizationConfig)
    (ds : Dataset) :
  config st = Some cfg -> dataset st = Some ds ->
  chartType cfg <> ChartType.PIE -> chartType cfg <> ChartType.BAR ->
  chartData st = data ds.
Proof.
  intros Hc Hd Hpie Hbar. unfold chartData, processData. rewrite Hc, Hd.
  apply String.eqb_neq in Hpie, Hbar. rewrite Hpie, Hbar. reflexivity.
Qed.

Lemma mapi_from_length {A B : Type} (f : A -> nat -> B) (l : list A) :
  forall i, length (mapi_from i f l) = length l.
Proof.
  induction l as [|x l IH]; intros i; simpl; [reflexivity|].
  now rewrite IH.
Qed.

Lemma mapi_from_Forall2 {A B : Type} (f : A -> nat -> B) (l : list A) :
  forall i, Forall2 (fun y x => exists j, y = f x j) (mapi_from i f l) l.
Proof.
  induction l as [|x l IH]; intros i; simpl; constructor; eauto.
Qed.

(** C2.  For a configuration whose chart type is none of the five the
    switch names, with a dataset loaded, [renderChart] returns the default
    branch: a composed chart over the raw rows with the common axes and one
    bar per series key, keyed and filled by that key. *)
Theorem unknown_chart_type_falls_back
    (st : AppState) (cfg : VisualizationConfig) (ds : Dataset) :
  config st = Some cfg ->
  dataset st = Some ds ->
  ~ In (chartType cfg) switch_cases ->
  renderChart st
  = ResponsiveContainer
      (El "ComposedChart"
          [ ("data", rows_value (data ds));
            ("margin", JObj [("top", JNum 20); ("right", JNum 30);
                             ("left", JNum 20); ("bottom", JNum 50)]) ]
          (axes cfg ++ bars cfg)%list)
  /\ Forall2 (fun bar key =>
                exists fill,
                  bar = El "Bar" [ ("key", JStr key); ("dataKey", JStr key);
                                   ("fill", JStr fill) ] [])
             (bars cfg) (series_keys cfg).
Proof.
  intros Hc Hd Hout.
  assert (chartType cfg <> ChartType.BAR /\ chartType cfg <> ChartType.LINE
          /\ chartType cfg <> ChartType.SCATTER
          /\ chartType cfg <> ChartType.PIE
          /\ chartType cfg <> ChartType.AREA) as (Hb & Hl & Hs & Hp & Ha).
  { unfold switch_cases in Hout. simpl in Hout.
    repeat split; intros E; apply Hout; rewrite E; tauto. }
  split.
  - unfold renderChart, commonProps. rewrite Hc, Hd.
    rewrite (chartData_raw st cfg ds Hc Hd Hp Hb).
    apply String.eqb_neq in Hb, Hl, Hs, Hp, Ha.
    rewrite Hb, Hl, Hs, Hp, Ha. reflexivity.
  - unfold bars, mapi.
    eapply Forall2_impl; [|apply mapi_from_Forall2].
    intros bar key [j ->]. eexists. reflexivity.
Qed.

End Properties.

(* ================================================================= *)
(** ** Properties of the aggregation heuristic *)

Section Aggregation.

(** *** Own properties *)

Lemma obj_own_update_same (k : string) (v : jsval) (o : obj) :
  obj_own o k <> None -> obj_own (obj_update k v o) k = Some v.
Proof.
  induction o as [|[k' v'] o IH]; simpl; [congruence|].
  destruct (k' =? k) eqn:E; simpl; rewrite E; [reflexivity|exact IH].
Qed.

Lemma obj_own_update_other (k k' : string) (v : jsval) (o : obj) :
  k' <> k -> obj_own (obj_update k v o) k' = obj_own o k'.
Proof.
  intros Hne. induction o as [|[k0 v0] o IH]; simpl; [reflexivity|].
  destruct (k0 =? k) eqn:E; simpl.
  - apply String.eqb_eq in E. subst k0.
    destruct (k =? k') eqn:E'; [|reflexivity].
    apply String.eqb_eq in E'. congruence.
  - now rewrite IH.
Qed.

Lemma obj_update_keys (k : string) (v : jsval) (o : obj) :
  map fst (obj_update k v o) = map fst o.
Proof.
  induction o as [|[k0 v0] o IH]; simpl; [reflexivity|].
  destruct (k0 =? k); simpl; [reflexivity|now rewrite IH].
Qed.

Lemma obj_own_insert_same (n : N) (k : string) (v : jsval) (o : obj) :
  obj_own o k = None -> obj_own (obj_insert_index n k v o) k = Some v.
Proof.
  induction o as [|[k0 v0] o IH]; simpl.
  - now rewrite String.eqb_refl.
  - destruct (k0 =? k) eqn:E; [discriminate|]. intros Hown.
    destruct (array_index k0) as [m|]; [destruct (m <? n)%N|]; simpl;
      rewrite ?E, ?String.eqb_refl; auto.
Qed.

Lemma obj_own_insert_other (n : N) (k k' : string) (v : jsval) (o : obj) :
  k' <> k -> obj_own (obj_insert_index n k v o) k' = obj_own o k'.
Proof.
  intros Hne. apply not_eq_sym in Hne. apply String.eqb_neq in Hne.
  induction o as [|[k0 v0] o IH]; simpl; [now rewrite Hne|].
  destruct (array_index k0) as [m|]; [destruct (m <? n)%N|]; simpl;
    rewrite ?Hne, ?IH; reflexivity.
Qed.

Lemma obj_own_app_same (k : string) (v : jsval) (o : obj) :
  obj_own o k = None -> obj_own (o ++ [(k, v)])%list k = Some v.
Proof.
  induction o as [|[k0 v0] o IH]; simpl.
  - now rewrite String.eqb_refl.
  - destruct (k0 =? k); [discriminate|exact IH].
Qed.

Lemma obj_own_app_other (k k' : string) (v : jsval) (o : obj) :
  k' <> k -> obj_own (o ++ [(k, v)])%list k' = obj_own o k'.
Proof.
  intros Hne. apply not_eq_sym in Hne. apply String.eqb_neq in Hne.
  induction o as [|[k0 v0] o IH]; simpl; [now rewrite Hne|].
  now rewrite IH.
Qed.

Lemma obj_own_define_same (k : string) (v : jsval) (o : obj) :
  obj_own (obj_define k v o) k = Some v.
Proof.
  unfold obj_define. destruct (obj_own o k) eqn:E.
  - apply obj_own_update_same. congruence.
  - destruct (array_index k).
    + now apply obj_own_insert_same.
    + now apply obj_own_app_same.
Qed.

Lemma obj_own_define_other (k k' : string) (v : jsval) (o : obj) :
  k' <> k -> obj_own (obj_define k v o) k' = obj_own o k'.
Proof.
  intros Hne. unfold obj_define. destruct (obj_own o k).
  - now apply obj_own_update_other.
  - destruct (array_index k).
    + now apply obj_own_insert_other.
    + now apply obj_own_app_other.
Qed.

Lemma obj_get_own (o : obj) (k : string) (v : jsval) :
  obj_own o k = Some v -> obj_get o k = v.
Proof. unfold obj_get. now intros ->. Qed.

Lemma obj_own_keys (o : obj) (k : string) :
  obj_own o k <> None <-> In k (map fst o).
Proof.
  induction o as [|[k0 v0] o IH]; simpl; [intuition congruence|].
  destruct (k0 =? k) eqn:E.
  - apply String.eqb_eq in E. split; [auto|congruence].
  - apply String.eqb_neq in E. rewrite IH. intuition congruence.
Qed.

Lemma obj_own_In (o : obj) (k : string) (v : jsval) :
  NoDup (map fst o) -> In (k, v) o -> obj_own o k = Some v.
Proof.
  induction o as [|[k0 v0] o IH]; simpl; [tauto|].
  intros Hnd [Heq|Hin].
  - inversion Heq; subst. now rewrite String.eqb_refl.
  - inversion Hnd as [|? ? Hnotin Hnd']; subst.
    destruct (k0 =? k) eqn:E; [|now apply IH].
    apply String.eqb_eq in E. subst k0. exfalso. apply Hnotin.
    change k with (fst (k, v)). now apply in_map.
Qed.

(** *** New properties keep what the object held *)

Lemma obj_insert_index_perm (n : N) (k : string) (v : jsval) (o : obj) :
  Permutation (obj_insert_index n k v o) ((k, v) :: o).
Proof.
  induction o as [|[k0 v0] o IH]; simpl; [apply Permutation_refl|].
  destruct (array_index k0) as [m|]; [destruct (m <? n)%N|];
    try apply Permutation_refl.
  eapply Permutation_trans; [apply perm_skip, IH|apply perm_swap].
Qed.

Lemma obj_define_fresh_perm (k : string) (v : jsval) (o : obj) :
  obj_own o k = None -> Permutation (obj_define k v o) ((k, v) :: o).
Proof.
  intros H. unfold obj_define. rewrite H.
  destruct (array_index k).
  - apply obj_insert_index_perm.
  - apply Permutation_sym, Permutation_cons_append.
Qed.

Lemma total_perm (o1 o2 : obj) : Permutation o1 o2 -> total o1 = total o2.
Proof.
  induction 1 as [|[k v] l1 l2 _ IH|[k1 v1] [k2 v2] l|l1 l2 l3 _ IH1 _ IH2].
  - reflexivity.
  - simpl. destruct v; lia.
  - simpl. destruct v1, v2; lia.
  - congruence.
Qed.

Lemma total_update (k : string) (n : Z) (o : obj) :
  obj_own o k = Some (JNum n) ->
  total (obj_update k (JNum (n + 1)) o) = (total o + 1)%Z.
Proof.
  induction o as [|[k0 v0] o IH]; simpl; [discriminate|].
  destruct (k0 =? k) eqn:E.
  - intros H. inversion H; subst. simpl. lia.
  - intros H. simpl. rewrite (IH H). destruct v0; lia.
Qed.

(** *** One row *)

Lemma plain_key_not_proto (k : string) : plain_key k -> k <> "__proto__".
Proof.
  unfold plain_key, Object_prototype_get. intros H ->. discriminate.
Qed.

Lemma tally_S (n : nat) : tally (S n) = Some (JNum (Z.of_nat (S n))).
Proof. reflexivity. Qed.

Lemma tally_None (n : nat) : tally n = None <-> n = O.
Proof. destruct n; simpl; split; congruence. Qed.

Lemma group_size_snoc (xKey : string) (rows : list obj) (row : obj)
    (k : string) :
  group_size xKey (rows ++ [row]) k
  = (group_size xKey rows k
     + (if string_dec (group_key xKey row) k then 1 else 0))%nat.
Proof.
  unfold group_size. rewrite map_app, count_occ_app. simpl.
  destruct (string_dec (group_key xKey row) k); reflexivity.
Qed.

Lemma count_row_counted (xKey : string) (rows : list obj) (row : obj)
    (counts : obj) :
  plain_key (group_key xKey row) ->
  counted xKey rows counts ->
  counted xKey (rows ++ [row]) (count_row xKey counts row).
Proof.
  intros Hplain (Hnd & Hown & Htot).
  unfold count_row. fold (group_key xKey row).
  set (key := group_key xKey row) in *.
  assert (forall k, k <> key ->
            group_size xKey (rows ++ [row]) k = group_size xKey rows k)
    as Hother.
  { intros k Hk. rewrite group_size_snoc. fold key.
    destruct (string_dec key k); [congruence|lia]. }
  assert (group_size xKey (rows ++ [row]) key = S (group_size xKey rows key))
    as Hsame.
  { rewrite group_size_snoc. fold key.
    destruct (string_dec key key); [lia|congruence]. }
  assert (length (rows ++ [row]) = S (length rows)) as Hlen.
  { rewrite length_app. simpl. lia. }
  pose proof (Hown key) as Hkey.
  destruct (group_size xKey rows key) as [|n] eqn:Hn.
  - (* first row of its group *)
    simpl in Hkey.
    assert (obj_get counts key = JUndefined) as Hget.
    { unfold obj_get. rewrite Hkey. unfold plain_key in Hplain.
      now rewrite Hplain. }
    rewrite Hget. unfold obj_set. rewrite Hkey.
    apply plain_key_not_proto in Hplain. apply String.eqb_neq in Hplain.
    rewrite Hplain. change (or_zero_plus_one JUndefined) with (JNum 1).
    pose proof (obj_define_fresh_perm key (JNum 1) counts Hkey) as Hperm.
    repeat split.
    + eapply Permutation_NoDup;
        [apply Permutation_sym, Permutation_map, Hperm|].
      simpl. constructor; [|exact Hnd].
      intros Hin. apply obj_own_keys in Hin. congruence.
    + intros k. destruct (string_dec k key) as [->|Hk].
      * rewrite obj_own_define_same, Hsame. reflexivity.
      * rewrite obj_own_define_other by exact Hk.
        rewrite (Hother k Hk). apply Hown.
    + rewrite (total_perm _ _ Hperm), Hlen.
      change (total ((key, JNum 1) :: counts)) with (1 + total counts)%Z.
      lia.
  - (* one more row of a known group *)
    rewrite tally_S in Hkey.
    rewrite (obj_get_own counts key _ Hkey).
    unfold obj_set. rewrite Hkey.
    assert (or_zero_plus_one (JNum (Z.of_nat (S n)))
            = JNum (Z.of_nat (S n) + 1)) as Hbump.
    { unfold or_zero_plus_one, truthy.
      destruct (Z.of_nat (S n) =? 0)%Z eqn:E; [|reflexivity].
      apply Z.eqb_eq in E. lia. }
    rewrite Hbump.
    repeat split.
    + now rewrite obj_update_keys.
    + intros k. destruct (string_dec k key) as [->|Hk].
      * rewrite obj_own_update_same by congruence.
        rewrite Hsame, tally_S. do 2 f_equal. lia.
      * rewrite obj_own_update_other by exact Hk.
        rewrite (Hother k Hk). apply Hown.
    + rewrite (total_update key _ counts Hkey), Htot, Hlen. lia.
Qed.

Lemma counts_counted (xKey : string) (rows : list obj) :
  Forall (fun row => plain_key (group_key xKey row)) rows ->
  counted xKey rows (fold_left (count_row xKey) rows []).
Proof.
  induction rows as [|row rows IH] using rev_ind; intros Hplain.
  - split; [constructor|split; [intros k; reflexivity|reflexivity]].
  - apply Forall_app in Hplain. destruct Hplain as [Hrows Hrow].
    inversion Hrow; subst.
    rewrite fold_left_app. simpl. apply count_row_counted; auto.
Qed.

(** *** The entries built from the counters *)

Lemma entry_name_count_entry (cfg : VisualizationConfig) (k : string)
    (v : jsval) :
  entry_name (count_entry cfg (k, v)) = JStr k.
Proof.
  unfold entry_name, count_entry. apply obj_get_own, obj_own_define_same.
Qed.

Lemma entry_count_count_entry (cfg : VisualizationConfig) (k : string)
    (v : jsval) :
  yAxisKey cfg = "" \/ yAxisKey cfg = "count" ->
  entry_count cfg (count_entry cfg (k, v)) = v.
Proof.
  intros Hy. unfold entry_count, count_entry. apply obj_get_own.
  rewrite obj_own_define_other; [apply obj_own_define_same|].
  destruct Hy as [-> | ->]; discriminate.
Qed.

Lemma total_of_sizes (f : string -> Z) (o : obj) :
  (forall k v, In (k, v) o -> v = JNum (f k)) ->
  total o = fold_right Z.add 0%Z (map f (map fst o)).
Proof.
  induction o as [|[k v] o IH]; intros H; [reflexivity|].
  rewrite (H k v (or_introl eq_refl)). simpl. f_equal.
  apply IH. intros k' v' Hin. apply H. now right.
Qed.

Lemma aggregation_applies_run (rows : list obj) (cfg : VisualizationConfig) :
  aggregation_applies rows cfg ->
  processData (Some rows) (Some cfg)
  = map (count_entry cfg) (fold_left (count_row (xAxisKey cfg)) rows []).
Proof.
  intros (Htype & Hlen & Hy). unfold processData, Object_entries.
  assert ((chartType cfg =? ChartType.PIE) || (chartType cfg =? ChartType.BAR)
          = true) as ->.
  { apply orb_true_iff. destruct Htype as [-> | ->]; auto. }
  assert ((20 <? length rows)%nat = true) as -> by now apply Nat.ltb_lt.
  assert (negb (nonempty (yAxisKey cfg)) || (yAxisKey cfg =? "count") = true)
    as ->; [|reflexivity].
  destruct Hy as [-> | ->]; reflexivity.
Qed.

(** When the groups avoid the names a plain object inherits, the
    aggregated output lists each distinct group once, with the number of
    rows of the group as its count; the counts add up to the number of
    rows. *)
Theorem aggregation_counts_groups (rows : list obj)
    (cfg : VisualizationConfig) :
  aggregation_applies rows cfg ->
  Forall (fun row => plain_key (group_key (xAxisKey cfg) row)) rows ->
  let out := processData (Some rows) (Some cfg) in
  let size := fun k => Z.of_nat (group_size (xAxisKey cfg) rows k) in
  exists groups : list string,
    NoDup groups
    /\ (forall k, In k groups <-> In k (map (group_key (xAxisKey cfg)) rows))
    /\ map entry_name out = map JStr groups
    /\ map (entry_count cfg) out = map (fun k => JNum (size k)) groups
    /\ fold_right Z.add 0%Z (map size groups) = Z.of_nat (length rows).
Proof.
  intros Happ Hplain out size. subst out.
  rewrite (aggregation_applies_run rows cfg Happ).
  destruct (counts_counted (xAxisKey cfg) rows Hplain) as (Hnd & Hown & Htot).
  set (counts := fold_left (count_row (xAxisKey cfg)) rows []) in *.
  assert (forall k v, In (k, v) counts -> v = JNum (size k)) as Hval.
  { intros k v Hin. pose proof (obj_own_In counts k v Hnd Hin) as Hk.
    rewrite Hown in Hk. unfold size.
    destruct (group_size (xAxisKey cfg) rows k);
      [discriminate|rewrite tally_S in Hk; congruence]. }
  exists (map fst counts). repeat split.
  - exact Hnd.
  - intros Hin. apply obj_own_keys in Hin. rewrite Hown in Hin.
    apply (count_occ_In string_dec).
    fold (group_size (xAxisKey cfg) rows k).
    destruct (group_size (xAxisKey cfg) rows k); [now elim Hin|lia].
  - intros Hin. apply obj_own_keys. rewrite Hown.
    apply (count_occ_In string_dec) in Hin.
    fold (group_size (xAxisKey cfg) rows k) in Hin.
    destruct (group_size (xAxisKey cfg) rows k); [lia|discriminate].
  - rewrite !map_map. apply map_ext. intros [k v].
    apply entry_name_count_entry.
  - rewrite !map_map. apply map_ext_in. intros [k v] Hin.
    rewrite entry_count_count_entry by apply Happ.
    now apply Hval.
  - rewrite <- Htot. symmetry. now apply total_of_sizes.
Qed.

(** Outside the aggregation condition the rows come back as they are. *)
Theorem processData_passthrough (rows : list obj)
    (cfg : VisualizationConfig) :
  ~ aggregation_applies rows cfg ->
  processData (Some rows) (Some cfg) = rows.
Proof.
  intros Hnot. unfold processData.
  destruct ((chartType cfg =? ChartType.PIE) || (chartType cfg =? ChartType.BAR))
    eqn:Htype; [|reflexivity].
  destruct (20 <? length rows)%nat eqn:Hlen; [|reflexivity].
  destruct (negb (nonempty (yAxisKey cfg)) || (yAxisKey cfg =? "count"))
    eqn:Hy; [|reflexivity].
  exfalso. apply Hnot. repeat split.
  - apply orb_true_iff in Htype.
    destruct Htype as [H|H]; apply String.eqb_eq in H; auto.
  - now apply Nat.ltb_lt.
  - apply orb_true_iff in Hy. destruct Hy as [H|H].
    + left. unfold nonempty in H. rewrite negb_involutive in H.
      now apply String.eqb_eq.
    + right. now apply String.eqb_eq.
Qed.

(** The two example scenarios of the specification. *)
Example six_classes_are_plotted_raw :
  processData (Some Sample.six_classes)
    (Some {| chartType := ChartType.BAR; xAxisKey := "Pclass";
             yAxisKey := ""; seriesKeys := None; groupBy := None;
             title := ""; description := ""; colors := None;
             xLabel := None; yLabel := None; rCode := None;
             pythonCode := None |})
  = Sample.six_classes.
Proof. reflexivity. Qed.

Example three_categories_are_counted :
  map (entry_count Sample.bar_by_role)
      (processData (Some Sample.categories) (Some Sample.bar_by_role))
  = [JNum 10; JNum 10; JNum 5].
Proof. vm_compute. reflexivity. Qed.

(** C1.  On twenty-one rows whose group is the word [constructor], under a
    bar chart without y-axis key, the aggregation applies and there is one
    group; the single entry of the output carries, where its count should
    be the number 21, the source text of the inherited function [Object]
    followed by twenty-one digits 1. *)
Theorem constructor_rows_are_miscounted :
  aggregation_applies Sample.constructors Sample.bar_by_role
  /\ map (group_key "Role") Sample.constructors = repeat "constructor" 21
  /\ processData (Some Sample.constructors) (Some Sample.bar_by_role)
     = [[ ("Role", JStr "constructor");
          ("value",
           JStr "function Object() { [native code] }111111111111111111111");
          ("name", JStr "constructor") ]]
  /\ map (entry_count Sample.bar_by_role)
         (processData (Some Sample.constructors) (Some Sample.bar_by_role))
     <> [JNum 21].
Proof.
  split; [|split; [|split]].
  - unfold aggregation_applies. simpl. repeat split; [now right|lia|now left].
  - reflexivity.
  - vm_compute. reflexivity.
  - vm_compute. discriminate.
Qed.

(** Rows whose group spells [__proto__] fall through the inherited
    setter: the output has no entry for them. *)
Example proto_rows_vanish :
  processData (Some Sample.protos) (Some Sample.bar_by_role) = [].
Proof. vm_compute. reflexivity. Qed.

End Aggregation.

(* ================================================================= *)
(** ** The theorems at sample inputs *)

(** The specified payload differs from the transmitted one on a string
    with two commas, on a header without payload and on the empty
    string. *)
Lemma image_payload_not_as_specified :
  analyze_parts (Some "a,b,c") "p"
    <> [GenAI.TextPart "p";
        GenAI.InlineDataPart "image/png" (payload_as_specified "a,b,c")]
  /\ analyze_parts (Some "data:image/png;base64,") "p"
    <> [GenAI.TextPart "p";
        GenAI.InlineDataPart "image/png"
          (payload_as_specified "data:image/png;base64,")]
  /\ analyze_parts (Some "") "p"
    <> [GenAI.TextPart "p";
        GenAI.InlineDataPart "image/png" (payload_as_specified "")].
Proof.
  repeat split; vm_compute; discriminate.
Qed.

Lemma unknown_chart_type_falls_back_witness :
  renderChart Sample.idle
  = ResponsiveContainer
      (El "ComposedChart"
          [ ("data", rows_value Sample.passengers);
            ("margin", JObj [("top", JNum 20); ("right", JNum 30);
                             ("left", JNum 20); ("bottom", JNum 50)]) ]
          (axes Sample.radar_by_class ++ bars Sample.radar_by_class)%list)
  /\ Forall2 (fun bar key =>
                exists fill,
                  bar = El "Bar" [ ("key", JStr key); ("dataKey", JStr key);
                                   ("fill", JStr fill) ] [])
             (bars Sample.radar_by_class) ["Fare"; "Age"].
Proof.
  apply (unknown_chart_type_falls_back
           Sample.idle Sample.radar_by_class Sample.titanic);
    [reflexivity | reflexivity |].
  simpl. intros H. repeat (destruct H as [H|H]; [discriminate|]). exact H.
Defined.

Lemma generation_failure_keeps_config_witness :
  let w := Sample.world (Some "key") Sample.idle in
  let w' := fst (@handleGenerate Sample.hostile w) in
  snd (@handleGenerate Sample.hostile w) = Returned tt
  /\ alerts (trace w') = [generation_alert]
  /\ In (Alert generation_alert) (trace w')
  /\ ui w' = with_loading false Sample.idle
  /\ loading (ui w') = false
  /\ config (ui w') = Some Sample.radar_by_class
  /\ dataset (ui w') = Some Sample.titanic.
Proof.
  apply (@generation_failure_keeps_config Sample.hostile
           (Sample.world (Some "key") Sample.idle) Sample.titanic
           (Error "503")).
  - reflexivity.
  - apply (@rejected_promise Sample.hostile _ _ "key" (Error "503"));
      reflexivity.
Defined.

Lemma generate_ignored_while_loading_witness :
  @click_generate Sample.friendly (Sample.world (Some "key") Sample.busy)
  = (Sample.world (Some "key") Sample.busy, Returned tt).
Proof.
  apply (@generate_ignored_while_loading Sample.friendly). reflexivity.
Defined.

Lemma upload_replaces_dataset_and_clears_config_witness :
  let w := Sample.world None Sample.idle in
  let uploaded := {| name := "roles.csv";
                     data := [[("Role", JStr "editor")]];
                     columns := ["Role"] |} in
  @handleFileUpload Sample.friendly (Some Sample.upload) w
  = ({| env := env w;
        ui := with_config None (with_dataset (Some uploaded) Sample.idle);
        trace := [] |}, Returned tt)
  /\ dataset (ui (fst (@handleFileUpload Sample.friendly
                         (Some Sample.upload) w))) = Some uploaded
  /\ config (ui (fst (@handleFileUpload Sample.friendly
                        (Some Sample.upload) w))) = None.
Proof.
  apply (@upload_replaces_dataset_and_clears_config Sample.friendly
           (Sample.world None Sample.idle) Sample.upload
           {| Papa.data := [[("Role", JStr "editor")]];
              Papa.meta := {| Papa.fields := Some ["Role"] |} |}
           ["Role"]); reflexivity.
Defined.

Lemma upload_failure_keeps_state_witness :
  let w := Sample.world None Sample.idle in
  @handleFileUpload Sample.hostile (Some Sample.upload) w
  = ({| env := env w; ui := Sample.idle;
        trace := [ConsoleError (Error "NotReadableError");
                  Alert "Failed to parse CSV"] |},
     Returned tt).
Proof.
  apply (@upload_failure_keeps_state Sample.hostile
           (Sample.world None Sample.idle) Sample.upload
           (Error "NotReadableError")).
  apply (@parser_error Sample.hostile). reflexivity.
Defined.

Lemma generate_selects_operation_witness :
  let w := Sample.world (Some "key") Sample.idle in
  @handleGenerate Sample.friendly w
  = @generation_with
      (@refineConfig Sample.friendly Sample.radar_by_class
         "use a darker palette") w
  /\ requests (trace (fst (@handleGenerate Sample.friendly w)))
     = [@refine_request Sample.friendly Sample.radar_by_class
          "use a darker palette"].
Proof.
  destruct (@generate_selects_operation Sample.friendly
              (Sample.world (Some "key") Sample.idle) Sample.titanic
              eq_refl) as [Hrefine _].
  destruct (Hrefine Sample.radar_by_class eq_refl eq_refl eq_refl)
    as (Hrun & Hsent & _).
  split; [exact Hrun | exact (Hsent eq_refl)].
Defined.

Lemma missing_key_fails_at_call_time_witness :
  let w := Sample.world None Sample.idle in
  @analyzeImageAndData Sample.friendly None Sample.passengers
     ["PassengerId"; "Pclass"; "Age"] "Visualize this data effectively" w
  = (w, Thrown key_error)
  /\ @refineConfig Sample.friendly Sample.radar_by_class
       "use a darker palette" w
     = (w, Thrown key_error).
Proof.
  destruct (@missing_key_fails_at_call_time Sample.friendly
              (Sample.world None Sample.idle) eq_refl)
    as (Hanalyze & Hrefine & _).
  split; [apply Hanalyze | apply Hrefine].
Defined.

Lemma prompt_reads_first_three_rows_witness :
  @analyze_request Sample.friendly None Sample.passengers ["Pclass"] "plot"
  = @analyze_request Sample.friendly None
      (firstn 3 Sample.passengers ++ [Sample.passenger 9 2 70])%list
      ["Pclass"] "plot".
Proof.
  apply (@prompt_reads_first_three_rows Sample.friendly None ["Pclass"]
           "plot" Sample.passengers
           (firstn 3 Sample.passengers ++ [Sample.passenger 9 2 70])%list).
  reflexivity.
Defined.

Lemma image_payload_stripped_witness :
  GenAI.inline_images
    (@analyze_request Sample.friendly (Some "data:image/png;base64,AAAA")
       Sample.passengers ["Pclass"] "plot")
  = ["AAAA"].
Proof.
  apply (@image_payload_stripped Sample.friendly
           "data:image/png;base64,AAAA" Sample.passengers ["Pclass"] "plot").
  unfold single_payload. simpl. repeat split.
Defined.

Lemma aggregation_counts_groups_witness :
  exists groups : list string,
    NoDup groups
    /\ (forall k, In k groups
                  <-> In k (map (group_key "Role") Sample.categories))
    /\ map entry_name
           (processData (Some Sample.categories) (Some Sample.bar_by_role))
       = map JStr groups
    /\ map (entry_count Sample.bar_by_role)
           (processData (Some Sample.categories) (Some Sample.bar_by_role))
       = map (fun k => JNum (Z.of_nat
                               (group_size "Role" Sample.categories k)))
             groups
    /\ fold_right Z.add 0%Z
         (map (fun k => Z.of_nat (group_size "Role" Sample.categories k))
              groups)
       = 25%Z.
Proof.
  apply (aggregation_counts_groups Sample.categories Sample.bar_by_role).
  - unfold aggregation_applies. simpl.
    repeat split; [now right | lia | now left].
  - unfold Sample.categories.
    repeat (apply Forall_app; split);
      apply Forall_forall; intros row Hin;
      apply repeat_spec in Hin; subst row; reflexivity.
Defined.

(* ================================================================= *)
(** ** Further properties of the aggregation and of the colours *)

Section Entries.

Lemma obj_define_keys_incl (k : string) (v : jsval) (o : obj) :
  incl (map fst (obj_define k v o)) (k :: map fst o).
Proof.
  unfold obj_define. destruct (obj_own o k) eqn:E.
  - rewrite obj_update_keys. apply incl_tl, incl_refl.
  - intros x Hx.
    assert (Permutation (map fst (obj_define k v o)) (k :: map fst o)) as Hp.
    { change (k :: map fst o) with (map fst ((k, v) :: o)).
      apply Permutation_map, obj_define_fresh_perm, E. }
    unfold obj_define in Hp. rewrite E in Hp.
    eapply Permutation_in; [exact Hp|exact Hx].
Qed.

(** The entry built for a group holds the group under [name], the count
    under the count key, and under the x-axis key the group, unless that
    key is the count key: then the count has replaced the group.  It
    holds nothing else. *)
Theorem count_entry_reads (cfg : VisualizationConfig) (group : string)
    (count : jsval) :
  let entry := count_entry cfg (group, count) in
  let countKey := or_else (yAxisKey cfg) "value" in
  obj_own entry "name" = Some (JStr group)
  /\ obj_own entry countKey
     = Some (if countKey =? "name" then JStr group else count)
  /\ obj_own entry (xAxisKey cfg)
     = Some (if xAxisKey cfg =? "name" then JStr group
             else if xAxisKey cfg =? countKey then count
             else JStr group)
  /\ incl (map fst entry) ["name"; countKey; xAxisKey cfg].
Proof.
  intros entry countKey. subst entry. unfold count_entry. fold countKey.
  repeat split.
  - apply obj_own_define_same.
  - destruct (countKey =? "name") eqn:E.
    + apply String.eqb_eq in E. rewrite E. apply obj_own_define_same.
    + apply String.eqb_neq in E.
      rewrite obj_own_define_other by exact E. apply obj_own_define_same.
  - destruct (xAxisKey cfg =? "name") eqn:E.
    + apply String.eqb_eq in E. rewrite E. apply obj_own_define_same.
    + apply String.eqb_neq in E. rewrite obj_own_define_other by exact E.
      destruct (xAxisKey cfg =? countKey) eqn:E'.
      * apply String.eqb_eq in E'. rewrite E'. apply obj_own_define_same.
      * apply String.eqb_neq in E'.
        rewrite obj_own_define_other by exact E'.
        apply obj_own_define_same.
  - intros k Hk.
    apply obj_define_keys_incl in Hk. destruct Hk as [<-|Hk]; [now left|].
    apply obj_define_keys_incl in Hk.
    destruct Hk as [<-|Hk]; [right; now left|].
    apply obj_define_keys_incl in Hk.
    destruct Hk as [<-|Hk]; [right; right; now left|]. destruct Hk.
Qed.

(** With an empty y-axis key the entry of a group has no key but
    [name], [value] and the x-axis key, and holds its count under
    [value]. *)
Lemma count_entry_keys_and_count (cfg : VisualizationConfig)
    (group : string) (count : jsval) :
  yAxisKey cfg = "" ->
  incl (map fst (count_entry cfg (group, count)))
       ["name"; "value"; xAxisKey cfg]
  /\ obj_own (count_entry cfg (group, count)) "value" = Some count.
Proof.
  intros Hy. unfold count_entry. rewrite Hy.
  change (or_else "" "value") with "value". split.
  - intros k Hk.
    apply obj_define_keys_incl in Hk. destruct Hk as [<-|Hk]; [now left|].
    apply obj_define_keys_incl in Hk.
    destruct Hk as [<-|Hk]; [right; now left|].
    apply obj_define_keys_incl in Hk.
    destruct Hk as [<-|Hk]; [right; right; now left|]. destruct Hk.
  - rewrite obj_own_define_other by discriminate.
    apply obj_own_define_same.
Qed.

(** *** Colours *)





(** In a pie the listed colours wrap around: when the configuration lists
    at least one colour and none is empty, the cell of index [i] takes the
    listed colour of index [i] modulo their number, so that only listed
    colours are used and they repeat with that period. *)
Theorem cell_color_cycles (cfg : VisualizationConfig) (cs : list string)
    (i : nat) :
  colors cfg = Some cs ->
  cs <> [] ->
  Forall (fun c => nonempty c = true) cs ->
  cell_color cfg i = nth (i mod length cs) cs ""
  /\ In (cell_color cfg i) cs
  /\ cell_color cfg (i + length cs) = cell_color cfg i.
Proof.
  intros Hcs Hne Hall.
  assert (forall j, cell_color cfg j = nth (j mod length cs) cs "") as Hcell.
  { intros j. unfold cell_color. rewrite Hcs.
    assert (match length cs with O => 1 | n => n end = length cs)%nat as ->.
    { destruct cs; [congruence|reflexivity]. }
    assert (j mod length cs < length cs)%nat as Hlt.
    { apply Nat.mod_upper_bound. destruct cs; [congruence|discriminate]. }
    rewrite (nth_error_nth' cs "" Hlt).
    rewrite Forall_forall in Hall.
    unfold or_else. rewrite (Hall _ (nth_In cs "" Hlt)). reflexivity. }
  repeat split.
  - apply Hcell.
  - rewrite Hcell. apply nth_In, Nat.mod_upper_bound.
    destruct cs; [congruence|discriminate].
  - rewrite !Hcell. f_equal.
    replace (i + length cs)%nat with (i + 1 * length cs)%nat by lia.
    apply Nat.Div0.mod_add.
Qed.

(** *** The image payload, again *)

Lemma up_to_comma_free (s : string) :
  after_first_comma (up_to_comma s) = None.
Proof.
  induction s as [|a s IH]; simpl; [reflexivity|].
  destruct (Ascii.eqb a ",") eqn:E; [reflexivity|].
  simpl. now rewrite E.
Qed.

Lemma payload_by_fields_cases (image : string) :
  payload_by_fields image = image
  \/ exists rest,
       after_first_comma image = Some rest
       /\ nonempty (up_to_comma rest) = true
       /\ payload_by_fields image = up_to_comma rest.
Proof.
  unfold payload_by_fields.
  destruct (after_first_comma image) as [rest|]; [|now left].
  unfold or_else. destruct (nonempty (up_to_comma rest)) eqn:Hf;
    [|now left].
  right. exists rest. repeat split. exact Hf.
Qed.

(** Stripping is idempotent and keeps a string non-empty; what it returns
    is the argument itself or a text without comma. *)
Theorem cleanBase64_idempotent (image : string) :
  cleanBase64 (cleanBase64 image) = cleanBase64 image
  /\ nonempty (cleanBase64 image) = nonempty image
  /\ (cleanBase64 image = image
      \/ after_first_comma (cleanBase64 image) = None).
Proof.
  rewrite !cleanBase64_by_fields.
  destruct (payload_by_fields_cases image)
    as [Hsame | (rest & Hrest & Hfield & Hp)].
  - rewrite !Hsame. split; [reflexivity|split; [reflexivity|now left]].
  - rewrite !Hp. repeat split.
    + unfold payload_by_fields. now rewrite up_to_comma_free.
    + rewrite Hfield. destruct image; [discriminate|reflexivity].
    + right. apply up_to_comma_free.
Qed.

End Entries.

(* ================================================================= *)
(** ** Which groups the aggregation lists, and in which order *)

Section Groups.

Lemma mem_string_In (k : string) (l : list string) :
  mem_string k l = true <-> In k l.
Proof.
  induction l as [|x l IH]; simpl; [split; [discriminate|tauto]|].
  rewrite orb_true_iff, IH, String.eqb_eq. tauto.
Qed.

Lemma mem_string_not_In (k : string) (l : list string) :
  mem_string k l = false <-> ~ In k l.
Proof.
  rewrite <- mem_string_In. destruct (mem_string k l); split; congruence.
Qed.

Lemma distinct_in_order_snoc (l : list string) (k : string) :
  distinct_in_order (l ++ [k])
  = if mem_string k (distinct_in_order l) then distinct_in_order l
    else (distinct_in_order l ++ [k])%list.
Proof. unfold distinct_in_order. rewrite fold_left_app. reflexivity. Qed.

Lemma counted_keys_snoc (xKey : string) (rows : list obj) (row : obj) :
  counted_keys xKey (rows ++ [row])
  = (counted_keys xKey rows
     ++ (if group_key xKey row =? "__proto__" then []
         else [group_key xKey row]))%list.
Proof.
  unfold counted_keys. rewrite map_app, filter_app. simpl.
  destruct (group_key xKey row =? "__proto__"); reflexivity.
Qed.

Lemma counted_keys_not_proto (xKey : string) (rows : list obj) (k : string) :
  In k (counted_keys xKey rows) -> k <> "__proto__".
Proof.
  unfold counted_keys. intros H. apply filter_In in H. destruct H as [_ H].
  apply negb_true_iff in H. now apply String.eqb_neq.
Qed.

Lemma counted_keys_incl (xKey : string) (rows : list obj) :
  incl (counted_keys xKey rows) (map (group_key xKey) rows).
Proof. intros k H. apply filter_In in H. tauto. Qed.

(** The keys of the counters after one more row: unchanged when the
    group is known or is spelled [__proto__], one more key otherwise. *)
Lemma count_row_keys (xKey : string) (counts : obj) (row : obj) :
  let k := group_key xKey row in
  (In k (map fst counts) \/ k = "__proto__") /\
    map fst (count_row xKey counts row) = map fst counts
  \/ (~ In k (map fst counts) /\ k <> "__proto__") /\
    exists v, count_row xKey counts row = obj_define k v counts
              /\ obj_own counts k = None.
Proof.
  intros k. unfold count_row. fold (group_key xKey row). fold k.
  unfold obj_set. destruct (obj_own counts k) as [v|] eqn:E.
  - left. split; [|apply obj_update_keys].
    left. apply obj_own_keys. congruence.
  - destruct (k =? "__proto__") eqn:Ep.
    + left. apply String.eqb_eq in Ep. split; [now right|reflexivity].
    + right. apply String.eqb_neq in Ep. split.
      * split; [|exact Ep]. intros Hin. apply obj_own_keys in Hin. congruence.
      * eexists. split; reflexivity.
Qed.

Lemma obj_define_fresh_keys_perm (k : string) (v : jsval) (o : obj) :
  obj_own o k = None ->
  Permutation (map fst (obj_define k v o)) (k :: map fst o).
Proof.
  intros H. change (k :: map fst o) with (map fst ((k, v) :: o)).
  now apply Permutation_map, obj_define_fresh_perm.
Qed.

(** The keys of the counters are the counted groups, each once. *)
Lemma counts_keys (xKey : string) (rows : list obj) :
  let counts := fold_left (count_row xKey) rows [] in
  NoDup (map fst counts)
  /\ forall k, In k (map fst counts) <-> In k (counted_keys xKey rows).
Proof.
  induction rows as [|row rows IH] using rev_ind.
  - simpl. split; [constructor|tauto].
  - cbv zeta in *. rewrite fold_left_app. simpl.
    set (counts := fold_left (count_row xKey) rows []) in *.
    destruct IH as [Hnd Hin]. rewrite counted_keys_snoc.
    destruct (count_row_keys xKey counts row)
      as [[Hknown Hkeys] | [[Hfresh Hnp] (v & Hdef & Hown)]].
    + rewrite Hkeys. split; [exact Hnd|].
      intros k. rewrite in_app_iff, Hin.
      destruct Hknown as [Hk | Hp].
      * apply Hin in Hk.
        pose proof (counted_keys_not_proto _ _ _ Hk) as Hnp.
        apply String.eqb_neq in Hnp. rewrite Hnp. simpl.
        split; [tauto|]. intros [H|[<-|[]]]; assumption.
      * rewrite Hp. simpl. tauto.
    + rewrite Hdef.
      pose proof (obj_define_fresh_keys_perm _ v counts Hown) as Hperm.
      apply String.eqb_neq in Hnp. rewrite Hnp. split.
      * eapply Permutation_NoDup; [apply Permutation_sym, Hperm|].
        now constructor.
      * intros k. rewrite in_app_iff, <- Hin. split.
        -- intros H. apply (Permutation_in _ Hperm) in H.
           destruct H as [<-|H]; [right; now left|now left].
        -- intros H. apply (Permutation_in _ (Permutation_sym Hperm)).
           destruct H as [H|[<-|[]]]; [now right|now left].
Qed.

(** For every list of rows, the aggregated output names each group that
    is not spelled [__proto__] once, names nothing else, and is no longer
    than the list of rows. *)
Theorem aggregation_lists_each_group_once (rows : list obj)
    (cfg : VisualizationConfig) :
  aggregation_applies rows cfg ->
  let out := processData (Some rows) (Some cfg) in
  exists groups : list string,
    map entry_name out = map JStr groups
    /\ NoDup groups
    /\ (forall k, In k groups <-> In k (counted_keys (xAxisKey cfg) rows))
    /\ (length out <= length rows)%nat.
Proof.
  intros Happ out. subst out.
  rewrite (aggregation_applies_run rows cfg Happ).
  destruct (counts_keys (xAxisKey cfg) rows) as [Hnd Hin].
  set (counts := fold_left (count_row (xAxisKey cfg)) rows []) in *.
  exists (map fst counts). repeat split.
  - rewrite !map_map. apply map_ext. intros [k v].
    apply entry_name_count_entry.
  - exact Hnd.
  - apply Hin.
  - apply Hin.
  - rewrite length_map, <- (length_map fst counts),
      <- (length_map (group_key (xAxisKey cfg)) rows).
    apply NoDup_incl_length; [exact Hnd|].
    intros k Hk. apply Hin in Hk. now apply counted_keys_incl.
Qed.

(** *** The order of the groups *)

Lemma array_index_inj (k1 k2 : string) (n : N) :
  array_index k1 = Some n -> array_index k2 = Some n -> k1 = k2.
Proof.
  assert (forall k, array_index k = Some n ->
                    k = NilZero.string_of_uint (N.to_uint n)) as H.
  { intros k. unfold array_index.
    destruct (NilZero.uint_of_string k) as [u|]; [|discriminate].
    destruct ((N.of_uint u <? 4294967295)%N
              && (NilZero.string_of_uint (N.to_uint (N.of_uint u)) =? k))
      eqn:E; [|discriminate].
    intros Hn. inversion Hn; subst.
    apply andb_true_iff in E. destruct E as [_ E].
    apply String.eqb_eq in E. now symmetry. }
  intros H1 H2. rewrite (H k1 H1), (H k2 H2). reflexivity.
Qed.

Lemma obj_insert_index_keys (n : N) (k : string) (v : jsval) (o : obj) :
  map fst (obj_insert_index n k v o) = insert_key n k (map fst o).
Proof.
  induction o as [|[k0 v0] o IH]; simpl; [reflexivity|].
  destruct (array_index k0) as [m|]; [destruct (m <? n)%N|]; simpl;
    rewrite ?IH; reflexivity.
Qed.

Lemma indices_found (idx : list string) (ns : list N) (n : N) :
  map array_index idx = map Some ns -> In n ns ->
  exists k, In k idx /\ array_index k = Some n.
Proof.
  intros Hmap Hin. apply (in_map Some) in Hin. rewrite <- Hmap in Hin.
  apply in_map_iff in Hin. destruct Hin as (k & Hk & Hin). eauto.
Qed.

Lemma indices_are_indices (idx : list string) (ns : list N) (k : string) :
  map array_index idx = map Some ns -> In k idx -> is_index k = true.
Proof.
  intros Hmap Hin. apply (in_map array_index) in Hin. rewrite Hmap in Hin.
  apply in_map_iff in Hin. destruct Hin as (n & Hn & _).
  unfold is_index. now rewrite <- Hn.
Qed.

(** A fresh index lands among the indices, which stay in ascending
    order, and before every other key. *)
Lemma insert_key_sorted (n : N) (k : string) (rest : list string) :
  array_index k = Some n ->
  Forall (fun k' => array_index k' = None) rest ->
  forall (idx : list string) (ns : list N),
    map array_index idx = map Some ns ->
    StronglySorted N.lt ns ->
    ~ In n ns ->
    exists idx' ns',
      insert_key n k (idx ++ rest) = (idx' ++ rest)%list
      /\ map array_index idx' = map Some ns'
      /\ StronglySorted N.lt ns'
      /\ (forall x, In x ns' <-> x = n \/ In x ns).
Proof.
  intros Hk Hrest. induction idx as [|k0 idx IH]; intros ns Hmap Hs Hfresh.
  - destruct ns; [|discriminate]. exists [k], [n]. simpl. repeat split.
    + destruct rest as [|k' rest']; [reflexivity|].
      inversion Hrest as [|? ? Hk' _]; subst. simpl. now rewrite Hk'.
    + now rewrite Hk.
    + repeat constructor.
    + intros [H|[]]; now left.
    + intros [H|[]]; now left.
  - destruct ns as [|m ns]; [discriminate|].
    simpl in Hmap. inversion Hmap as [[Hk0 Hmap']].
    inversion Hs as [|? ? Hs' Hall]; subst.
    simpl. rewrite Hk0. destruct (m <? n)%N eqn:Hlt.
    + apply N.ltb_lt in Hlt.
      destruct (IH ns Hmap' Hs') as (idx' & ns' & Hins & Hmap2 & Hs2 & Hmem).
      { intros Hin. apply Hfresh. now right. }
      exists (k0 :: idx'), (m :: ns'). simpl. repeat split.
      * now rewrite Hins.
      * now rewrite Hk0, Hmap2.
      * constructor; [exact Hs2|].
        apply Forall_forall. intros x Hx. apply Hmem in Hx.
        destruct Hx as [->|Hx]; [exact Hlt|].
        rewrite Forall_forall in Hall. now apply Hall.
      * intros [<-|Hx]; [right; now left|].
        apply Hmem in Hx. destruct Hx as [->|Hx]; [now left|right; now right].
      * intros [->|[<-|Hx]].
        -- right. apply Hmem. now left.
        -- now left.
        -- right. apply Hmem. now right.
    + apply N.ltb_ge in Hlt.
      assert (n < m)%N as Hnm.
      { assert (n <> m) by (intros ->; apply Hfresh; now left). lia. }
      exists (k :: k0 :: idx), (n :: m :: ns). simpl. repeat split.
      * now rewrite Hk, Hk0, Hmap'.
      * constructor; [exact Hs|]. constructor; [exact Hnm|].
        apply Forall_forall. intros x Hx.
        rewrite Forall_forall in Hall. specialize (Hall x Hx). lia.
      * intros [<-|H]; [now left|now right].
      * intros [->|H]; [now left|now right].
Qed.

(** The keys of the counters: the array indices in ascending order, then
    the other groups in the order of their first rows. *)
Lemma counts_order (xKey : string) (rows : list obj) :
  let counts := fold_left (count_row xKey) rows [] in
  exists (idx rest : list string) (ns : list N),
    map fst counts = (idx ++ rest)%list
    /\ map array_index idx = map Some ns
    /\ StronglySorted N.lt ns
    /\ Forall (fun k => array_index k = None) rest
    /\ rest = distinct_in_order
                (filter (fun k => negb (is_index k)) (counted_keys xKey rows)).
Proof.
  induction rows as [|row rows IH] using rev_ind.
  - exists [], [], []. simpl. repeat split; constructor.
  - cbv zeta in *. rewrite fold_left_app. simpl.
    destruct (counts_keys xKey rows) as [_ Hmem].
    set (counts := fold_left (count_row xKey) rows []) in *.
    destruct IH as (idx & rest & ns & Hkeys & Hmap & Hs & Hrest & Hdist).
    rewrite counted_keys_snoc, filter_app.
    destruct (count_row_keys xKey counts row)
      as [[Hknown Hsame] | [[Hfresh Hnp] (v & Hdef & Hown)]];
      set (k := group_key xKey row) in *.
    + (* no new key *)
      exists idx, rest, ns. rewrite Hsame. repeat split; try assumption.
      destruct (k =? "__proto__") eqn:Ep.
      { simpl. rewrite app_nil_r. exact Hdist. }
      assert (In k (map fst counts)) as Hin.
      { destruct Hknown as [H|H]; [exact H|].
        apply String.eqb_neq in Ep. congruence. }
      simpl. destruct (is_index k) eqn:Ei; simpl.
      { rewrite app_nil_r. exact Hdist. }
      rewrite distinct_in_order_snoc, <- Hdist.
      assert (In k rest) as Hr.
      { rewrite Hkeys in Hin. apply in_app_or in Hin.
        destruct Hin as [Hin|Hin]; [|exact Hin].
        rewrite (indices_are_indices idx ns k Hmap Hin) in Ei. discriminate. }
      apply mem_string_In in Hr. now rewrite Hr.
    + (* a new key *)
      apply String.eqb_neq in Hnp. rewrite Hnp. simpl.
      rewrite Hdef. unfold obj_define. rewrite Hown.
      destruct (array_index k) as [n|] eqn:Ek;
        [ assert (is_index k = true) as Ei
            by (unfold is_index; now rewrite Ek)
        | assert (is_index k = false) as Ei
            by (unfold is_index; now rewrite Ek) ];
        rewrite Ei; simpl.
      * rewrite obj_insert_index_keys, Hkeys.
        destruct (insert_key_sorted n k rest Ek Hrest idx ns Hmap Hs)
          as (idx' & ns' & Hins & Hmap' & Hs' & _).
        { intros Hin.
          destruct (indices_found idx ns n Hmap Hin) as (k0 & Hk0 & Hn0).
          apply Hfresh. rewrite Hkeys. apply in_or_app. left.
          now rewrite (array_index_inj k k0 n Ek Hn0). }
        exists idx', rest, ns'. rewrite app_nil_r.
        repeat split; assumption.
      * exists idx, (rest ++ [k])%list, ns.
        rewrite map_app, Hkeys, <- app_assoc. simpl. repeat split;
          try assumption.
        -- apply Forall_app. split; [exact Hrest|]. now constructor.
        -- rewrite distinct_in_order_snoc, <- Hdist.
           assert (~ In k rest) as Hr.
           { intros Hin. apply Hfresh. rewrite Hkeys.
             apply in_or_app. now right. }
           apply mem_string_not_In in Hr. now rewrite Hr.
Qed.

(** The aggregated output lists first the groups whose name is an array
    index, in ascending numeric order, then every other group in the
    order in which the rows first show it. *)
Theorem aggregation_order (rows : list obj) (cfg : VisualizationConfig) :
  aggregation_applies rows cfg ->
  let out := processData (Some rows) (Some cfg) in
  exists (idx rest : list string) (ns : list N),
    map entry_name out = map JStr (idx ++ rest)
    /\ map array_index idx = map Some ns
    /\ StronglySorted N.lt ns
    /\ rest = distinct_in_order
                (filter (fun k => negb (is_index k))
                        (counted_keys (xAxisKey cfg) rows)).
Proof.
  intros Happ out. subst out.
  rewrite (aggregation_applies_run rows cfg Happ).
  destruct (counts_order (xAxisKey cfg) rows)
    as (idx & rest & ns & Hkeys & Hmap & Hs & _ & Hdist).
  exists idx, rest, ns. repeat split; try assumption.
  rewrite <- Hkeys, !map_map. apply map_ext. intros [k v].
  apply entry_name_count_entry.
Qed.

Example mixed_groups_in_order :
  map entry_name (processData (Some Palette.mixed) (Some Sample.bar_by_role))
  = map JStr ["1"; "3"; "10"; "b"; "a"].
Proof. vm_compute. reflexivity. Qed.

End Groups.

(* ================================================================= *)
(** ** Further properties of the handlers *)

Section Rounds.

Context {platform : Platform}.

(** What a call of the model leaves behind: the same environment and
    state, and a trace that has gained the request, if there is a
    credential, and nothing else. *)
Lemma call_model_world (params : GenAI.GenerateContentParameters)
    (w : World) :
  exists sent,
    fst (call_model params w)
    = {| env := env w; ui := ui w; trace := (trace w ++ sent)%list |}
    /\ alerts sent = []
    /\ requests sent = if present (API_KEY (env w)) then [params] else [].
Proof.
  destruct (present (API_KEY (env w))) eqn:Hk.
  - unfold present in Hk.
    destruct (API_KEY (env w)) as [k|] eqn:Ek; [|discriminate].
    exists [Request {| GenAI.apiKey := k |} params].
    rewrite (call_model_present w params k Ek Hk). cbv zeta.
    destruct (generateContent _ params) as [reason|text].
    + repeat split.
    + rewrite read_response_pure. repeat split.
  - exists []. rewrite (call_model_absent w params Hk).
    destruct w; simpl. rewrite app_nil_r. repeat split.
Qed.

(** What a whole round leaves behind. *)
Lemma generation_with_world (params : GenAI.GenerateContentParameters)
    (w : World) :
  exists (c : option VisualizationConfig) (sent : list effect),
    generation_with (call_model params) w
    = ({| env := env w;
          ui := with_loading false
                  (match c with
                   | Some _ => with_config c (ui w)
                   | None => ui w
                   end);
          trace := (trace w ++ sent)%list |}, Returned tt)
    /\ requests sent = (if present (API_KEY (env w)) then [params] else [])
    /\ (length (alerts sent) <= 1)%nat.
Proof.
  destruct (call_model_world params
              {| env := env w; ui := with_loading true (ui w);
                 trace := trace w |}) as (sent & Hw & Ha & Hr).
  simpl in Hw, Hr.
  destruct (call_model params _) as [w2 [c|e]] eqn:E; simpl in Hw; subst w2.
  - exists (Some c), sent.
    rewrite (generation_with_returned _ w _ c E). simpl.
    repeat split; [exact Hr|rewrite Ha; simpl; lia].
  - exists None, (sent ++ [ConsoleError e; Alert generation_alert])%list.
    rewrite (generation_with_thrown _ w _ e E). simpl.
    rewrite <- app_assoc. repeat split.
    + rewrite requests_app, Hr. simpl. apply app_nil_r.
    + rewrite alerts_app, Ha. simpl. lia.
Qed.


(** A round whose call succeeds stores the parsed configuration, clears
    the loading flag, shows no alert and has sent the one request. *)
Theorem generation_success_stores_config
    (w : World) (ds : Dataset) (k text : string) (c : VisualizationConfig) :
  dataset (ui w) = Some ds ->
  API_KEY (env w) = Some k ->
  nonempty k = true ->
  generateContent {| GenAI.apiKey := k |} (pending_request (ui w) ds)
    = GenAI.Resolves (Some text) ->
  nonempty text = true ->
  JSON_parse text = Returned c ->
  handleGenerate w
  = ({| env := env w;
        ui := with_loading false (with_config (Some c) (ui w));
        trace := (trace w
                  ++ [Request {| GenAI.apiKey := k |}
                        (pending_request (ui w) ds)])%list |},
     Returned tt).
Proof.
  intros Hds Ek Hk Hgen Ht Hparse.
  rewrite (handleGenerate_round w ds Hds).
  assert (call_model (pending_request (ui w) ds)
            {| env := env w; ui := with_loading true (ui w);
               trace := trace w |}
          = ({| env := env w; ui := with_loading true (ui w);
                trace := (trace w
                          ++ [Request {| GenAI.apiKey := k |}
                                (pending_request (ui w) ds)])%list |},
             Returned c)) as Hcall.
  { rewrite (call_model_present _ _ k) by assumption. cbv zeta.
    rewrite Hgen. unfold read_response. rewrite Ht, Hparse. reflexivity. }
  rewrite (generation_with_returned _ w _ c Hcall). reflexivity.
Qed.

(** The instruction the user typed, or the default instruction when the
    field is empty, stands verbatim in the prompt of the request. *)
Theorem pending_request_quotes_instruction (st : AppState) (ds : Dataset) :
  exists text,
    GenAI.prompt_text (pending_request st ds) = [text]
    /\ occurs_in (or_else (prompt st) "Visualize this data effectively") text.
Proof.
  assert (forall image sample cols instruction,
            exists text,
              GenAI.prompt_text
                (analyze_request image sample cols instruction) = [text]
              /\ occurs_in instruction text) as Hfresh.
  { intros image sample cols instruction.
    exists (analyze_prompt sample cols instruction). split.
    - unfold analyze_request, analyze_parts, GenAI.prompt_text. simpl.
      destruct image as [i|]; [destruct (nonempty i)|]; reflexivity.
    - unfold occurs_in, analyze_prompt. simpl String.concat.
      eexists (String.concat nl
                 [ "";
                   "    You are an expert Data Visualization Engineer. ";
                   "    ";
                   "    Task:";
                   "    1. Analyze the provided dataset structure (columns and sample data).";
                   "    2. If an image is provided, analyze the chart style, type, and aesthetics (color, layout) from the image.";
                   "    3. Generate a configuration to recreate a similar visualization using the provided dataset.";
                   "    4. If no image is provided, suggest the best chart type based on the data and user prompt.";
                   "    5. Also generate R (ggplot2) and Python (matplotlib/seaborn) code snippets to reproduce this chart.";
                   "";
                   "    User Prompt: " ]).
      eexists. rewrite ?append_assoc. reflexivity. }
  unfold pending_request.
  destruct (config st) as [c|]; [|apply Hfresh].
  destruct (nonempty (prompt st) && negb (present (imagePreview st))) eqn:E;
    [|apply Hfresh].
  apply andb_true_iff in E. destruct E as [Hp _].
  unfold or_else. rewrite Hp.
  exists (refine_prompt c (prompt st)). split; [reflexivity|].
  unfold occurs_in, refine_prompt. simpl String.concat.
  exists (nl ++ "    Current Configuration: " ++ JSON_stringify c ++ nl
          ++ "    User Update Request: " ++ dq).
  eexists. rewrite ?append_assoc. reflexivity.
Qed.

End Rounds.

(* ================================================================= *)
(** ** Properties of sequences of events *)

Section Sessions.

Context {platform : Platform}.

(** The requests an event adds to the trace: the pending request when the
    event is a press of the enabled generate button and there is a
    credential, none otherwise. *)
Lemma dispatch_requests (e : event) (w : World) :
  requests (trace (fst (dispatch e w)))
  = (requests (trace w)
     ++ (if presses_generate e && negb (loading (ui w))
            && present (API_KEY (env w))
         then match dataset (ui w) with
              | Some ds => [pending_request (ui w) ds]
              | None => []
              end
         else []))%list.
Proof.
  destruct e as [|file|file|text| |tab]; simpl;
    try (now rewrite app_nil_r).
  - unfold App_mount, bind, loadExampleTitanic.
    pose proof (parse_promise_pure (OfString rawData) w) as Hp.
    destruct (parse_promise (OfString rawData) w) as [w1 [res|err]];
      simpl in Hp; subst w1; simpl; now rewrite app_nil_r.
  - destruct file as [file|]; [|now rewrite app_nil_r].
    unfold handleFileUpload, try_catch, bind, parseCSV.
    pose proof (parse_promise_pure (OfFile file) w) as Hp.
    destruct (parse_promise (OfFile file) w) as [w1 [res|err]];
      simpl in Hp; subst w1; simpl; [now rewrite app_nil_r|].
    rewrite <- app_assoc, requests_app. reflexivity.
  - destruct file; simpl; now rewrite app_nil_r.
  - unfold click_generate, click. simpl.
    destruct (loading (ui w)); simpl; [now rewrite app_nil_r|].
    destruct (dataset (ui w)) as [ds|] eqn:Hds; simpl.
    + rewrite (handleGenerate_round w ds Hds).
      destruct (generation_with_world (pending_request (ui w) ds) w)
        as (c & sent & Hrun & Hreq & _).
      rewrite Hrun. simpl. rewrite requests_app, Hreq.
      destruct (present (API_KEY (env w))); reflexivity.
    + destruct (present (API_KEY (env w))); now rewrite app_nil_r.
Qed.

(** No event but the choice of an image changes the image. *)
Lemma dispatch_image (e : event) (w : World) :
  chooses_image e = false ->
  imagePreview (ui (fst (dispatch e w))) = imagePreview (ui w).
Proof.
  destruct e as [|file|file|text| |tab]; simpl; intros He;
    try reflexivity.
  - unfold App_mount, bind, loadExampleTitanic.
    pose proof (parse_promise_pure (OfString rawData) w) as Hp.
    destruct (parse_promise (OfString rawData) w) as [w1 [res|err]];
      simpl in Hp; subst w1; reflexivity.
  - destruct file as [file|]; [|reflexivity].
    unfold handleFileUpload, try_catch, bind, parseCSV.
    pose proof (parse_promise_pure (OfFile file) w) as Hp.
    destruct (parse_promise (OfFile file) w) as [w1 [res|err]];
      simpl in Hp; subst w1; reflexivity.
  - destruct file; [discriminate|reflexivity].
  - unfold click_generate, click. simpl.
    destruct (loading (ui w)
              || match dataset (ui w) with Some _ => false | None => true end);
      [reflexivity|].
    destruct (dataset (ui w)) as [ds|] eqn:Hds.
    + rewrite (handleGenerate_round w ds Hds).
      destruct (generation_with_world (pending_request (ui w) ds) w)
        as (c & sent & Hrun & _).
      rewrite Hrun. destruct c; reflexivity.
    + unfold handleGenerate. rewrite Hds. reflexivity.
Qed.

Lemma pending_request_with_image (st : AppState) (ds : Dataset)
    (image : string) :
  imagePreview st = Some image -> nonempty image = true ->
  GenAI.inline_images (pending_request st ds) = [cleanBase64 image].
Proof.
  intros Hi Hne. unfold pending_request. rewrite Hi. simpl present.
  rewrite Hne, andb_false_r.
  assert (GenAI.inline_images
            (analyze_request (Some image) (data ds) (columns ds)
               (or_else (prompt st) "Visualize this data effectively"))
          = [cleanBase64 image]) as H.
  { unfold analyze_request, analyze_parts, GenAI.inline_images. simpl.
    rewrite Hne. reflexivity. }
  destruct (config st); exact H.
Qed.

(** Once a reference image is loaded, and as long as no other image is
    chosen, the image stays and every request the component sends carries
    it: each later generation is a full generation, never a
    refinement. *)
Theorem image_forces_full_generation (events : list event) :
  forall (w : World) (image : string),
    imagePreview (ui w) = Some image ->
    nonempty image = true ->
    forallb (fun e => negb (chooses_image e)) events = true ->
    imagePreview (ui (run events w)) = Some image
    /\ exists sent,
         requests (trace (run events w)) = (requests (trace w) ++ sent)%list
         /\ Forall (fun params =>
                      GenAI.inline_images params = [cleanBase64 image])
                   sent.
Proof.
  induction events as [|e events IH]; intros w image Hi Hne Hev.
  - simpl. split; [exact Hi|]. exists []. split; [now rewrite app_nil_r|].
    constructor.
  - simpl in Hev. apply andb_true_iff in Hev. destruct Hev as [He Hev].
    apply negb_true_iff in He. simpl.
    pose proof (dispatch_image e w He) as Himg. rewrite Hi in Himg.
    destruct (IH (fst (dispatch e w)) image Himg Hne Hev)
      as [Hfinal (sent & Hsent & Hall)].
    split; [exact Hfinal|].
    rewrite Hsent, dispatch_requests, <- app_assoc.
    eexists. split; [reflexivity|].
    apply Forall_app. split; [|exact Hall].
    destruct (presses_generate e && negb (loading (ui w))
              && present (API_KEY (env w))); [|constructor].
    destruct (dataset (ui w)) as [ds|]; [|constructor].
    constructor; [|constructor].
    now apply pending_request_with_image.
Qed.

(** Requests come from presses of the generate button only, at most one
    for each press. *)
Theorem requests_need_presses (events : list event) :
  forall w : World,
    (length (requests (trace (run events w)))
     <= length (requests (trace w))
        + length (filter presses_generate events))%nat.
Proof.
  induction events as [|e events IH]; intros w; simpl; [lia|].
  specialize (IH (fst (dispatch e w))).
  rewrite dispatch_requests, length_app in IH.
  destruct (presses_generate e); simpl in *.
  - destruct (negb (loading (ui w)) && present (API_KEY (env w)));
      [destruct (dataset (ui w))|]; simpl in IH; lia.
  - lia.
Qed.

(** *** What the workspace shows *)

Lemma run_keeps_config_with_dataset (events : list event) :
  forall w : World,
    config_has_dataset (ui w) -> config_has_dataset (ui (run events w)).
Proof.
  induction events as [|e events IH]; intros w Hinv; [exact Hinv|].
  simpl. apply IH, dispatch_keeps_config_with_dataset, Hinv.
Qed.

(** After any sequence of events from the initial state, the chart panel
    shows the placeholder exactly when no configuration is stored. *)
Theorem placeholder_iff_no_config (key : option string)
    (events : list event) :
  let st := ui (run events {| env := {| API_KEY := key |};
                              ui := initialState; trace := [] |}) in
  renderChart st = placeholder <-> config st = None.
Proof.
  intros st.
  assert (config_has_dataset st) as Hinv.
  { apply run_keeps_config_with_dataset.
    unfold config_has_dataset. simpl. congruence. }
  unfold config_has_dataset in Hinv. unfold renderChart.
  destruct (config st) as [c|]; [|split; reflexivity].
  destruct (dataset st) as [ds|]; [|exfalso; now apply Hinv].
  split; [|discriminate].
  destruct (chartType c =? ChartType.BAR); [discriminate|].
  destruct (chartType c =? ChartType.LINE); [discriminate|].
  destruct (chartType c =? ChartType.SCATTER); [discriminate|].
  destruct (chartType c =? ChartType.PIE); [discriminate|].
  destruct (chartType c =? ChartType.AREA); discriminate.
Qed.

(** After a successful upload the workspace is blank again, whatever it
    showed before: no title header, and under the tabs the chart
    placeholder or the placeholder line of the selected listing. *)
Theorem upload_blanks_workspace
    (w : World) (file : File.t) (results : Papa.ParseResult)
    (cols : list string) :
  Papa_parse (OfFile file) parse_options = Papa.complete results ->
  Papa.fields (Papa.meta results) = Some cols ->
  let st := ui (fst (handleFileUpload (Some file) w)) in
  configHeader st = []
  /\ renderChart st = placeholder
  /\ code_or rCode "# R code will appear here" st
     = "# R code will appear here"
  /\ code_or pythonCode "# Python code will appear here" st
     = "# Python code will appear here"
  /\ activeTab st = activeTab (ui w).
Proof.
  intros E F st. subst st.
  unfold handleFileUpload, try_catch, bind, parseCSV, parse_promise.
  rewrite E, F. simpl. repeat split.
Qed.

End Sessions.

(* ================================================================= *)
(** ** The further properties at sample inputs *)

Lemma processData_passthrough_witness :
  processData (Some Sample.passengers) (Some Sample.bar_by_role)
  = Sample.passengers.
Proof.
  apply (processData_passthrough Sample.passengers Sample.bar_by_role).
  unfold aggregation_applies. simpl. lia.
Defined.

Lemma aggregation_lists_each_group_once_witness :
  exists groups : list string,
    map entry_name
        (processData (Some Sample.protos) (Some Sample.bar_by_role))
    = map JStr groups
    /\ NoDup groups
    /\ (forall k, In k groups <-> In k (counted_keys "Role" Sample.protos))
    /\ (length (processData (Some Sample.protos) (Some Sample.bar_by_role))
        <= 21)%nat.
Proof.
  apply (aggregation_lists_each_group_once Sample.protos Sample.bar_by_role).
  unfold aggregation_applies. simpl.
  repeat split; [now right | lia | now left].
Defined.

Lemma aggregation_order_witness :
  exists (idx rest : list string) (ns : list N),
    map entry_name
        (processData (Some Palette.mixed) (Some Sample.bar_by_role))
    = map JStr (idx ++ rest)
    /\ map array_index idx = map Some ns
    /\ StronglySorted N.lt ns
    /\ rest = distinct_in_order
                (filter (fun k => negb (is_index k))
                        (counted_keys "Role" Palette.mixed)).
Proof.
  apply (aggregation_order Palette.mixed Sample.bar_by_role).
  unfold aggregation_applies. simpl.
  repeat split; [now right | lia | now left].
Defined.

Lemma cell_color_cycles_witness :
  cell_color Palette.two_tone 5 = "#eeeeee"
  /\ In (cell_color Palette.two_tone 5) ["#111111"; "#eeeeee"]
  /\ cell_color Palette.two_tone (5 + 2) = cell_color Palette.two_tone 5.
Proof.
  apply (cell_color_cycles Palette.two_tone ["#111111"; "#eeeeee"] 5).
  - reflexivity.
  - discriminate.
  - repeat constructor.
Defined.

Lemma generation_success_stores_config_witness :
  let w := Sample.world (Some "key") Sample.idle in
  @handleGenerate Sample.friendly w
  = ({| env := env w;
        ui := with_loading false
                (with_config (Some Sample.bar_by_role) Sample.idle);
        trace := [Request {| GenAI.apiKey := "key" |}
                    (@pending_request Sample.friendly Sample.idle
                       Sample.titanic)] |},
     Returned tt).
Proof.
  apply (@generation_success_stores_config Sample.friendly
           (Sample.world (Some "key") Sample.idle) Sample.titanic
           "key" "{}" Sample.bar_by_role); reflexivity.
Defined.

Lemma image_forces_full_generation_witness :
  let w := Sample.world (Some "key") Palette.styled in
  let events := [PressGenerate; TypePrompt "as a pie"; PressGenerate] in
  imagePreview (ui (@run Sample.friendly events w))
  = Some "data:image/png;base64,AAAA"
  /\ exists sent,
       requests (trace (@run Sample.friendly events w)) = ([] ++ sent)%list
       /\ Forall (fun params =>
                    GenAI.inline_images params
                    = [cleanBase64 "data:image/png;base64,AAAA"])
                 sent.
Proof.
  apply (@image_forces_full_generation Sample.friendly
           [PressGenerate; TypePrompt "as a pie"; PressGenerate]
           (Sample.world (Some "key") Palette.styled)
           "data:image/png;base64,AAAA"); reflexivity.
Defined.

Lemma upload_blanks_workspace_witness :
  let st := ui (fst (@handleFileUpload Sample.friendly (Some Sample.upload)
                       (Sample.world None Sample.idle))) in
  configHeader st = []
  /\ renderChart st = placeholder
  /\ code_or rCode "# R code will appear here" st
     = "# R code will appear here"
  /\ code_or pythonCode "# Python code will appear here" st
     = "# Python code will appear here"
  /\ activeTab st = tab_chart.
Proof.
  apply (@upload_blanks_workspace Sample.friendly
           (Sample.world None Sample.idle) Sample.upload
           {| Papa.data := [[("Role", JStr "editor")]];
              Papa.meta := {| Papa.fields := Some ["Role"] |} |}
           ["Role"]); reflexivity.
Defined.

(* ================================================================= *)
(** ** The aggregated bar chart *)

(** With an empty y-axis key and no series keys, the one bar of the bar
    chart reads the key [""] of each row, while the aggregation stores the
    counts under [value]: once the rows have been aggregated, no row
    gives the bar a value. *)
Theorem aggregated_bar_without_y_key
    (st : AppState) (cfg : VisualizationConfig) (ds : Dataset) :
  config st = Some cfg ->
  dataset st = Some ds ->
  chartType cfg = ChartType.BAR ->
  yAxisKey cfg = "" ->
  seriesKeys cfg = None ->
  xAxisKey cfg <> "" ->
  (20 < length (data ds))%nat ->
  bars cfg = [ El "Bar" [ ("key", JStr ""); ("dataKey", JStr "");
                          ("fill", JStr (series_color cfg 0)) ] [] ]
  /\ Forall (fun row => obj_get row "" = JUndefined
                        /\ exists count, obj_own row "value" = Some count)
            (chartData st).
Proof.
  intros Hc Hd Htype Hy Hseries Hx Hlen. split.
  - unfold bars, series_keys. rewrite Hseries, Hy. reflexivity.
  - unfold chartData. rewrite Hc, Hd.
    rewrite aggregation_applies_run
      by (repeat split; [now right | exact Hlen | now left]).
    apply Forall_forall. intros row Hin.
    apply in_map_iff in Hin. destruct Hin as ([group count] & <- & _).
    destruct (count_entry_keys_and_count cfg group count Hy)
      as [Hkeys Hcount].
    split; [|now exists count].
    unfold obj_get.
    destruct (obj_own (count_entry cfg (group, count)) "") eqn:E;
      [|reflexivity].
    exfalso.
    assert (In "" (map fst (count_entry cfg (group, count)))) as Hin.
    { apply obj_own_keys. congruence. }
    apply Hkeys in Hin.
    destruct Hin as [H|[H|[H|[]]]]; try discriminate. now apply Hx.
Qed.

Lemma aggregated_bar_without_y_key_witness :
  let st := with_config (Some Sample.bar_by_role)
              (with_dataset
                 (Some {| name := "roles.csv"; data := Sample.categories;
                          columns := ["Role"] |}) Sample.idle) in
  bars Sample.bar_by_role
  = [ El "Bar" [ ("key", JStr ""); ("dataKey", JStr "");
                 ("fill", JStr (series_color Sample.bar_by_role 0)) ] [] ]
  /\ Forall (fun row => obj_get row "" = JUndefined
                        /\ exists count, obj_own row "value" = Some count)
            (chartData st).
Proof.
  apply (aggregated_bar_without_y_key _ Sample.bar_by_role
           {| name := "roles.csv"; data := Sample.categories;
              columns := ["Role"] |});
    try reflexivity; [discriminate | simpl; lia].
Defined.
